(** * igviz: plotting a networkx graph as plotly scatter traces

    A shallow embedding of [src/igviz/igviz.py] ([plot],
    [_generate_scatter_trace], [_generate_figure], [_apply_layout]) and the
    properties of its specification.

    Modelling choices.
    - The graph object of the graph library is a record holding what the
      code reads from it: its class, the ordered node dictionary
      [G.nodes] (node identifier -> attribute dictionary) and the
      enumeration [G.edges(data=True)].
    - Coordinates are floating point numbers in the program.  They are kept
      abstract here ([coord]), together with the one arithmetic expression
      the program evaluates on them, [(a + b) / 2] ([midpoint]).
    - The seven layout algorithms belong to the graph library; they are
      members of the class [Libraries], receive, besides the graph, the
      state of the library's random generator ([entropy]), and are known
      only by their contract: a position for every node, or an exception.
    - Exceptions are values of [Exn]; a function that can raise returns a
      [Result]: the exceptions raised by the statements of igviz itself
      (dictionary lookups, tuple unpacking), by the layout algorithms, and
      by the charting library, which validates what igviz hands to it (the
      settings of the traces when they are created, every assignment to
      the marker sizes and colors, the layout of the figure) and raises
      [ValueError] on what it does not accept.  What it accepts is up to
      the library: the validators are members of [Libraries]. *)

From Stdlib Require Import ZArith String Ascii List Lia DecimalString.
From stdpp Require Import base option list gmap strings.

Local Open Scope string_scope.
Local Open Scope list_scope.

(** ** Exceptions and results *)

Inductive Exn :=
| KeyError (key : string)
| TypeError
| ValueError
| NetworkXException.

Inductive Result (A : Type) :=
| Ok (a : A)
| Raise (e : Exn).
Arguments Ok {A} a.
Arguments Raise {A} e.

#[global] Instance Result_ret : MRet Result := fun A a => Ok a.
#[global] Instance Result_bind : MBind Result := fun A B f m =>
  match m with
  | Ok a => f a
  | Raise e => Raise e
  end.

Definition is_Ok {A} (r : Result A) : bool :=
  match r with Ok _ => true | Raise _ => false end.

(** A [for] loop whose body can raise: the first exception ends the loop. *)
Fixpoint for_each {S A} (body : S -> A -> Result S) (l : list A) (s : S)
  : Result S :=
  match l with
  | [] => Ok s
  | a :: l' => s' ← body s a; for_each body l' s'
  end.

(** ** Ordered dictionaries

    A Python [dict] keeps its keys in insertion order and the program
    relies on it ([edge_properties.items()]); such a dictionary is an
    association list without duplicate keys. *)

Section OrderedDict.
Context {K V : Type} `{EqDecision K}.

Fixpoint od_get (k : K) (d : list (K * V)) : option V :=
  match d with
  | [] => None
  | (k', v) :: d' => if decide (k = k') then Some v else od_get k d'
  end.

Definition od_mem (k : K) (d : list (K * V)) : bool :=
  match od_get k d with Some _ => true | None => false end.

(** [d[k] = v]: an existing key keeps its place, a new key goes last. *)
Fixpoint od_set (k : K) (v : V) (d : list (K * V)) : list (K * V) :=
  match d with
  | [] => [(k, v)]
  | (k', v') :: d' =>
      if decide (k = k') then (k', v) :: d' else (k', v') :: od_set k v d'
  end.

Definition od_keys (d : list (K * V)) : list K := fst <$> d.

(** The dictionary with the keys [ks], in this order, and the values
    [f k]. *)
Definition tab (f : K -> V) (ks : list K) : list (K * V) :=
  (fun k => (k, f k)) <$> ks.
End OrderedDict.

(** ** Text *)

Definition str_int (z : Z) : string := NilZero.string_of_int (Z.to_int z).

(** ASCII white space as [str.strip] removes it. *)
Definition is_space (c : ascii) : bool :=
  let n := nat_of_ascii c in
  (Nat.leb 9 n && Nat.leb n 13) || (Nat.leb 28 n && Nat.leb n 32).

Fixpoint lstrip (s : string) : string :=
  match s with
  | EmptyString => EmptyString
  | String c s' => if is_space c then lstrip s' else s
  end.

Fixpoint rstrip (s : string) : string :=
  match s with
  | EmptyString => EmptyString
  | String c s' =>
      match rstrip s' with
      | EmptyString => if is_space c then EmptyString else String c EmptyString
      | r => String c r
      end
  end.

Definition strip (s : string) : string := rstrip (lstrip s).

(** ** The graph *)

Abbreviation Node := string (only parsing).

Inductive GraphClass := NxGraph | NxDiGraph | NxMultiGraph | NxMultiDiGraph.

(** [isinstance(G, (nx.DiGraph, nx.MultiDiGraph))] *)
Definition is_directed_class (c : GraphClass) : bool :=
  match c with
  | NxDiGraph | NxMultiDiGraph => true
  | NxGraph | NxMultiGraph => false
  end.

Section GraphModel.
Context {coord : Type}.

(** Attribute values: integers, strings and positions (a pair of
    coordinates, the only values that unpack into [x, y]). *)
Inductive Value :=
| VInt (z : Z)
| VStr (s : string)
| VPos (x y : coord).

(** One item of [G.edges(data=True)]. *)
Record Edge := mkEdge {
  e_src : Node;
  e_tgt : Node;
  e_data : list (string * Value)
}.

Record Graph := mkGraph {
  g_class : GraphClass;
  g_nodes : list (Node * gmap string Value);
  g_edges : list Edge
}.

(** [G.nodes()] *)
Definition G_nodes (G : Graph) : list Node := od_keys (g_nodes G).

(** [G.nodes[n]] *)
Definition G_node (G : Graph) (n : Node) : Result (gmap string Value) :=
  match od_get n (g_nodes G) with
  | Some d => Ok d
  | None => Raise (KeyError n)
  end.

(** [d[k]] on an attribute dictionary *)
Definition getitem (d : gmap string Value) (k : string) : Result Value :=
  match d !! k with
  | Some v => Ok v
  | None => Raise (KeyError k)
  end.

(** [G.nodes[n][k]] *)
Definition G_node_attr (G : Graph) (n : Node) (k : string) : Result Value :=
  d ← G_node G n; getitem d k.

(** Unpacking [x, y = v]. *)
Definition unpack2 (v : Value) : Result (coord * coord) :=
  match v with
  | VPos x y => Ok (x, y)
  | _ => Raise TypeError
  end.

(** The statement [x, y = G.nodes[n]["pos"]] (lines 173, 174 and 201). *)
Definition node_xy (G : Graph) (n : Node) : Result (coord * coord) :=
  p ← G_node_attr G n "pos"; unpack2 p.

(** [G.degree(n)]: the number of edge ends at [n] (a self loop counts
    twice; on a directed graph in-degree plus out-degree). *)
Definition edge_ends (n : Node) (e : Edge) : Z :=
  ((if decide (e_src e = n) then 1 else 0)
   + (if decide (e_tgt e = n) then 1 else 0))%Z.

Definition G_degree (G : Graph) (n : Node) : Z :=
  foldr (fun e acc => (edge_ends n e + acc)%Z) 0%Z (g_edges G).

(** [nx.get_node_attributes(G, name)] *)
Definition get_node_attributes (G : Graph) (name : string)
  : list (Node * Value) :=
  omap (fun nd : Node * gmap string Value =>
          match snd nd !! name with
          | Some v => Some (fst nd, v)
          | None => None
          end) (g_nodes G).

(** [nx.set_node_attributes(G, values, name)] with [values] a dictionary:
    every node that is a key of [values] gets [name] set. *)
Definition set_node_attributes (G : Graph) (values : gmap Node Value)
    (name : string) : Graph :=
  {| g_class := g_class G;
     g_nodes := (fun nd : Node * gmap string Value =>
                   match values !! fst nd with
                   | Some v => (fst nd, <[name := v]> (snd nd))
                   | None => nd
                   end) <$> g_nodes G;
     g_edges := g_edges G |}.

(** ** Traces and figure *)

(** [x] and [y] of the edge trace hold coordinates and the gap sentinel
    [None]. *)
Record EdgeTrace := mkEdgeTrace {
  et_x : list (option coord);
  et_y : list (option coord)
}.

Record MiddleNodeTrace := mkMiddleNodeTrace {
  mt_x : list coord;
  mt_y : list coord;
  mt_text : list string
}.

Record NodeTrace := mkNodeTrace {
  nt_x : list coord;
  nt_y : list coord;
  nt_text : list string;
  nt_size : list Value;
  nt_color : list Value;
  nt_colorscale : string;
  nt_colorbar_title : string
}.

(** The caption has fixed paper coordinates; an arrow goes from
    [(ax, ay)] to [(x, y)]. *)
Inductive Annotation :=
| Caption (text : string)
| Arrow (ax ay x y : coord).

Record Figure := mkFigure {
  fig_edge_trace : EdgeTrace;
  fig_node_trace : NodeTrace;
  fig_middle_node_trace : MiddleNodeTrace;
  fig_title : string;
  fig_titlefont_size : Z;
  fig_showlegend : bool;
  fig_annotations : list Annotation
}.

(** [size_method] and [color_method] are a string or a list. *)
Inductive Method :=
| MStr (s : string)
| MList (l : list Value).

(** The keyword arguments of [plot]. *)
Record PlotArgs := mkPlotArgs {
  title : string;
  layout : option string;
  size_method : Method;
  color_method : Method;
  node_text : list string;
  show_edgetext : bool;
  titlefont_size : Z;
  showlegend : bool;
  annotation_text : string;
  colorscale : string;
  colorbar_title : string
}.

Definition default_args : PlotArgs :=
  {| title := "Graph"; layout := None;
     size_method := MStr "degree"; color_method := MStr "degree";
     node_text := []; show_edgetext := false; titlefont_size := 16;
     showlegend := false; annotation_text := "";
     colorscale := "YlGnBu"; colorbar_title := "" |}.

End GraphModel.

Arguments Value : clear implicits.
Arguments Edge : clear implicits.
Arguments Graph : clear implicits.
Arguments Figure : clear implicits.
Arguments PlotArgs : clear implicits.
Arguments EdgeTrace : clear implicits.
Arguments MiddleNodeTrace : clear implicits.
Arguments NodeTrace : clear implicits.
Arguments Annotation : clear implicits.
Arguments Method : clear implicits.

(** ** What the libraries supply

    Float arithmetic and formatting, the layout algorithms of the graph
    library, and the validation of the charting library.  A layout
    algorithm returns a dictionary holding a position for every node of
    the graph it is given, or raises.  The charting library checks a
    sequence of marker sizes or colors element by element. *)

Abbreviation PosDict coord := (gmap string (coord * coord)) (only parsing).

Class Libraries (coord : Type) := {
  (** the float expression [(a + b) / 2] *)
  midpoint : coord -> coord -> coord;
  (** [str] of a position *)
  str_pos : coord -> coord -> string;
  (** the state of the random generator the algorithms may draw from *)
  entropy : Type;
  nx_random_layout : Graph coord -> entropy -> Result (PosDict coord);
  nx_circular_layout : Graph coord -> entropy -> Result (PosDict coord);
  nx_kamada_kawai_layout : Graph coord -> entropy -> Result (PosDict coord);
  nx_planar_layout : Graph coord -> entropy -> Result (PosDict coord);
  nx_spring_layout : Graph coord -> entropy -> Result (PosDict coord);
  nx_spectral_layout : Graph coord -> entropy -> Result (PosDict coord);
  nx_spiral_layout : Graph coord -> entropy -> Result (PosDict coord);
  (** the charting library accepts the three traces as lines 143-170
      create them, with this color scale and color bar title *)
  scatter_ok : string -> string -> bool;
  (** the charting library accepts this value as a marker size *)
  marker_size_ok : Value coord -> bool;
  (** the charting library accepts this value as a marker color *)
  marker_color_ok : Value coord -> bool;
  (** the charting library accepts the layout of lines 294-303 with this
      title, title font size, legend flag and these annotations *)
  layout_ok : string -> Z -> bool -> list (Annotation coord) -> bool;
  layout_covers_nodes :
    forall f,
      f ∈ [nx_random_layout; nx_circular_layout; nx_kamada_kawai_layout;
           nx_planar_layout; nx_spring_layout; nx_spectral_layout;
           nx_spiral_layout] ->
    forall G rnd pos_dict n,
      f G rnd = Ok pos_dict -> n ∈ G_nodes G -> is_Some (pos_dict !! n)
}.

(** ** The program *)

Section Igviz.
Context {coord : Type} `{Libraries coord}.

(** *** Formatting values in f-strings *)

Definition py_str (v : Value coord) : string :=
  match v with
  | VInt z => str_int z
  | VStr s => s
  | VPos x y => str_pos x y
  end.

(** [repr]: a string is quoted (escape sequences are not modelled). *)
Definition py_repr (v : Value coord) : string :=
  match v with
  | VStr s => "'" +:+ s +:+ "'"
  | _ => py_str v
  end.

(** [str] of a list of values *)
Definition str_list (l : list (Value coord)) : string :=
  "[" +:+ String.concat ", " (py_repr <$> l) +:+ "]".

(** *** [_apply_layout] (lines 309-326) *)

Definition layout_functions
  : list (string * (Graph coord -> entropy -> Result (PosDict coord))) :=
  [ ("random", nx_random_layout);
    ("circular", nx_circular_layout);
    ("kamada", nx_kamada_kawai_layout);
    ("planar", nx_planar_layout);
    ("spring", nx_spring_layout);
    ("spectral", nx_spectral_layout);
    ("spiral", nx_spiral_layout) ].

Definition pos_values (pos_dict : gmap Node (coord * coord))
  : gmap Node (Value coord) :=
  (fun p : coord * coord => VPos (fst p) (snd p)) <$> pos_dict.

Definition _apply_layout (G : Graph coord) (layout : string) (rnd : entropy)
  : Result (Graph coord) :=
  match od_get layout layout_functions with
  | None => Raise (KeyError layout)
  | Some f =>
      pos_dict ← f G rnd;
      Ok (set_node_attributes G (pos_values pos_dict) "pos")
  end.

(** *** The layout step of [plot] (lines 98-101) *)

(** Truth value of the [layout] argument: [None] and the empty string are
    false. *)
Definition layout_given (layout : option string) : option string :=
  match layout with
  | Some "" => None
  | l => l
  end.

Definition plot_layout_step (G : Graph coord) (layout : option string)
    (rnd : entropy) : Result (Graph coord) :=
  match layout_given layout with
  | Some l => _apply_layout G l rnd
  | None =>
      match get_node_attributes G "pos" with
      | [] => _apply_layout G "random" rnd
      | _ :: _ => Ok G
      end
  end.

(** *** [_generate_scatter_trace] (lines 127-246) *)

(** The state of the loop over the edges (lines 172-196). *)
Record EdgeLoop := mkEdgeLoop {
  el_edge_trace : EdgeTrace coord;
  el_middle : MiddleNodeTrace coord;
  el_edge_properties : list ((Node * Node) * list (string * list (Value coord)))
}.

Definition edge_pair (edge : Edge coord) : Node * Node :=
  (e_src edge, e_tgt edge).

(** Lines 192-196, for one attribute of the edge.  The key is present when
    it is read. *)
Definition add_property (props : list (string * list (Value coord)))
    (kv : string * Value coord) : list (string * list (Value coord)) :=
  let props := if od_mem (fst kv) props then props
               else od_set (fst kv) [] props in
  od_set (fst kv) (default [] (od_get (fst kv) props) ++ [snd kv]) props.

Definition edge_body (G : Graph coord) (show_edgetext : bool) (st : EdgeLoop)
    (edge : Edge coord) : Result EdgeLoop :=
  xy0 ← node_xy G (e_src edge);
  xy1 ← node_xy G (e_tgt edge);
  let et := el_edge_trace st in
  let et := {| et_x := et_x et ++ [Some (fst xy0); Some (fst xy1); None];
               et_y := et_y et ++ [Some (snd xy0); Some (snd xy1); None] |} in
  if show_edgetext then
    let props := el_edge_properties st in
    let mt := el_middle st in
    let seen := od_mem (edge_pair edge) props in
    let props := if seen then props else od_set (edge_pair edge) [] props in
    let mt :=
      if seen then mt
      else {| mt_x := mt_x mt ++ [midpoint (fst xy0) (fst xy1)];
              mt_y := mt_y mt ++ [midpoint (snd xy0) (snd xy1)];
              mt_text := mt_text mt |} in
    let inner := fold_left add_property (e_data edge)
                   (default [] (od_get (edge_pair edge) props)) in
    Ok {| el_edge_trace := et;
          el_middle := mt;
          el_edge_properties := od_set (edge_pair edge) inner props |}
  else
    Ok {| el_edge_trace := et;
          el_middle := el_middle st;
          el_edge_properties := el_edge_properties st |}.

(** Lines 207-208: the hover line of one requested node attribute. *)
Definition text_body (G : Graph coord) (node : Node) (text : string)
    (prop : string) : Result string :=
  v ← G_node_attr G node prop;
  Ok (text +:+ "<br></br>" +:+ prop +:+ ": " +:+ py_str v).

(** Lines 199 and 205-208. *)
Definition node_hover (G : Graph coord) (node_text : list string)
    (node : Node) : Result string :=
  let text := "Node: " +:+ node +:+ "<br>Degree: "
              +:+ str_int (G_degree G node) in
  match node_text with
  | [] => Ok text
  | _ :: _ => for_each (text_body G node) node_text text
  end.

(** An assignment to the marker sizes or colors: the charting library
    checks every element of the new sequence. *)
Definition validated (ok : Value coord -> bool) (l : list (Value coord))
  : Result (list (Value coord)) :=
  if forallb ok l then Ok l else Raise ValueError.

(** Lines 212-220. *)
Definition size_entry (G : Graph coord) (size_method : Method coord)
    (node : Node) (size : list (Value coord)) : Result (list (Value coord)) :=
  match size_method with
  | MList l => validated marker_size_ok l
  | MStr s =>
      if decide (s = "degree")
      then validated marker_size_ok (size ++ [VInt (G_degree G node + 12)])
      else if decide (s = "static")
      then validated marker_size_ok (size ++ [VInt 12])
      else v ← G_node_attr G node s; validated marker_size_ok (size ++ [v])
  end.

(** Lines 222-235. *)
Definition color_entry (G : Graph coord) (color_method : Method coord)
    (node : Node) (color : list (Value coord)) : Result (list (Value coord)) :=
  match color_method with
  | MList l => validated marker_color_ok l
  | MStr s =>
      if decide (s = "degree")
      then validated marker_color_ok (color ++ [VInt (G_degree G node)])
      else
        d ← G_node G node;
        match d !! s with
        | Some v => validated marker_color_ok (color ++ [v])
        | None => validated marker_color_ok (color ++ [VStr s])
        end
  end.

(** The body of the loop over the nodes (lines 199-235): the position is
    read first, then the hover text is built, then size and color. *)
Definition node_body (G : Graph coord) (size_method color_method : Method coord)
    (node_text : list string) (nt : NodeTrace coord) (node : Node)
  : Result (NodeTrace coord) :=
  xy ← node_xy G node;
  text ← node_hover G node_text node;
  size ← size_entry G size_method node (nt_size nt);
  color ← color_entry G color_method node (nt_color nt);
  Ok {| nt_x := nt_x nt ++ [fst xy];
        nt_y := nt_y nt ++ [snd xy];
        nt_text := nt_text nt ++ [strip text];
        nt_size := size;
        nt_color := color;
        nt_colorscale := nt_colorscale nt;
        nt_colorbar_title := nt_colorbar_title nt |}.

(** Lines 239-242: the hover text of one tracked pair. *)
Definition edge_text (vals : list (string * list (Value coord))) : string :=
  String.concat (String "010" "")
    ((fun kv : string * list (Value coord) =>
        fst kv +:+ ": " +:+ str_list (snd kv)) <$> vals).

Definition edge_loop_init : EdgeLoop :=
  {| el_edge_trace := {| et_x := []; et_y := [] |};
     el_middle := {| mt_x := []; mt_y := []; mt_text := [] |};
     el_edge_properties := [] |}.

Definition node_trace_init (colorscale colorbar_title : string)
  : NodeTrace coord :=
  {| nt_x := []; nt_y := []; nt_text := []; nt_size := []; nt_color := [];
     nt_colorscale := colorscale; nt_colorbar_title := colorbar_title |}.

(** Lines 172-246: the two loops and the hover texts. *)
Definition scatter_loops (G : Graph coord)
    (size_method color_method : Method coord)
    (colorscale colorbar_title : string)
    (node_text : list string) (show_edgetext : bool)
  : Result (NodeTrace coord * EdgeTrace coord * MiddleNodeTrace coord) :=
  st ← for_each (edge_body G show_edgetext) (g_edges G) edge_loop_init;
  node_trace ← for_each (node_body G size_method color_method node_text)
                 (G_nodes G) (node_trace_init colorscale colorbar_title);
  let middle_node_trace :=
    if show_edgetext then
      {| mt_x := mt_x (el_middle st);
         mt_y := mt_y (el_middle st);
         mt_text := (fun pv => edge_text (snd pv)) <$> el_edge_properties st |}
    else el_middle st in
  Ok (node_trace, el_edge_trace st, middle_node_trace).

(** The three traces are created first (lines 143-170), then filled. *)
Definition _generate_scatter_trace (G : Graph coord)
    (size_method color_method : Method coord)
    (colorscale colorbar_title : string)
    (node_text : list string) (show_edgetext : bool)
  : Result (NodeTrace coord * EdgeTrace coord * MiddleNodeTrace coord) :=
  if scatter_ok colorscale colorbar_title
  then scatter_loops G size_method color_method colorscale colorbar_title
         node_text show_edgetext
  else Raise ValueError.

(** *** [_generate_figure] (lines 249-306) *)

(** [G.nodes[n]["pos"][i]], [i] being 0 ([false]) or 1 ([true]). *)
Definition pos_index (G : Graph coord) (n : Node) (i : bool) : Result coord :=
  p ← G_node_attr G n "pos";
  match p with
  | VPos x y => Ok (if i then y else x)
  | _ => Raise TypeError
  end.

Definition arrow_body (G : Graph coord) (annotations : list (Annotation coord))
    (edge : Edge coord) : Result (list (Annotation coord)) :=
  ax ← pos_index G (e_src edge) false;
  ay ← pos_index G (e_src edge) true;
  x ← pos_index G (e_tgt edge) false;
  y ← pos_index G (e_tgt edge) true;
  Ok (annotations ++ [Arrow ax ay x y]).

Definition _generate_figure (G : Graph coord) (node_trace : NodeTrace coord)
    (edge_trace : EdgeTrace coord) (middle_node_trace : MiddleNodeTrace coord)
    (title : string) (titlefont_size : Z) (showlegend : bool)
    (annotation_text : string) : Result (Figure coord) :=
  annotations ←
    (if is_directed_class (g_class G)
     then for_each (arrow_body G) (g_edges G) [Caption annotation_text]
     else Ok [Caption annotation_text]);
  if layout_ok title titlefont_size showlegend annotations
  then Ok {| fig_edge_trace := edge_trace;
             fig_node_trace := node_trace;
             fig_middle_node_trace := middle_node_trace;
             fig_title := title;
             fig_titlefont_size := titlefont_size;
             fig_showlegend := showlegend;
             fig_annotations := annotations |}
  else Raise ValueError.

(** *** [plot] (lines 6-124)

    [plot] returns the figure; the graph it has written the positions to
    is the result of [plot_layout_step]. *)
Definition plot (G : Graph coord) (a : PlotArgs coord) (rnd : entropy)
  : Result (Figure coord) :=
  G' ← plot_layout_step G (layout a) rnd;
  traces ← _generate_scatter_trace G' (size_method a) (color_method a)
             (colorscale a) (colorbar_title a) (node_text a)
             (show_edgetext a);
  _generate_figure G' (fst (fst traces)) (snd (fst traces)) (snd traces)
    (title a) (titlefont_size a) (showlegend a) (annotation_text a).

End Igviz.

(** ** Vocabulary of the specification *)

Section FirstSeen.
Context {A : Type} `{EqDecision A}.

(** The distinct elements of a list, each at its first occurrence. *)
Fixpoint nub (l : list A) : list A :=
  match l with
  | [] => []
  | x :: l' => x :: filter (fun y => y <> x) (nub l')
  end.

End FirstSeen.

Section Vocabulary.
Context {coord : Type} `{Libraries coord}.

(** The node pairs that have an edge, as the edge enumeration reports them
    (source first), in first-seen order. *)
Definition distinct_pairs (G : Graph coord) : list (Node * Node) :=
  nub (edge_pair <$> g_edges G).

(** The attribute items of all edges reported for the pair [p], in order. *)
Definition pair_items (p : Node * Node) (edges : list (Edge coord))
  : list (string * Value coord) :=
  mjoin (e_data <$> filter (fun e => edge_pair e = p) edges).

Definition values_of (k : string) (items : list (string * Value coord))
  : list (Value coord) :=
  snd <$> filter (fun kv => fst kv = k) items.

(** Every key with the list of its values, keys in first-seen order. *)
Definition group_by_key (items : list (string * Value coord))
  : list (string * list (Value coord)) :=
  tab (fun k => values_of k items) (nub (fst <$> items)).

Definition aggregate (p : Node * Node) (edges : list (Edge coord))
  : list (string * list (Value coord)) :=
  group_by_key (pair_items p edges).

(** The midpoint between the positions of the two nodes of a pair. *)
Definition pair_midpoint (G : Graph coord) (p : Node * Node)
  : Result (coord * coord) :=
  xy0 ← node_xy G (fst p);
  xy1 ← node_xy G (snd p);
  Ok (midpoint (fst xy0) (fst xy1), midpoint (snd xy0) (snd xy1)).

(** The color entry of a node when [color_method] is the string [c]. *)
Definition color_value (G : Graph coord) (c : string) (n : Node)
  : Value coord :=
  match od_get n (g_nodes G) ≫= (fun d => d !! c) with
  | Some v => v
  | None => VStr c
  end.

(** The color entry of a node when [color_method] is a string. *)
Definition color_of (G : Graph coord) (c : string) (n : Node) : Value coord :=
  if decide (c = "degree") then VInt (G_degree G n) else color_value G c n.

(** The size entry of a node when [size_method] is a string. *)
Definition size_value (G : Graph coord) (s : string) (n : Node)
  : Result (Value coord) :=
  if decide (s = "degree") then Ok (VInt (G_degree G n + 12))
  else if decide (s = "static") then Ok (VInt 12)
  else G_node_attr G n s.

(** The hover text of a node as it is stored in the trace. *)
Definition hover_text (G : Graph coord) (node_text : list string) (n : Node)
  : Result string :=
  text ← node_hover G node_text n; Ok (strip text).

(** The arrow annotation of an edge. *)
Definition arrow_of (G : Graph coord) (e : Edge coord)
  : Result (Annotation coord) :=
  xy0 ← node_xy G (e_src e);
  xy1 ← node_xy G (e_tgt e);
  Ok (Arrow (fst xy0) (snd xy0) (fst xy1) (snd xy1)).

(** A literal list given for sizes or colors is stored as it is once a
    node has been processed. *)
Definition verbatim (l : list (Value coord)) (seen : list Node)
  : list (Value coord) :=
  match seen with [] => [] | _ :: _ => l end.

(** A pair without its orientation. *)
Definition unordered (p : Node * Node) : gset Node := {[fst p; snd p]}.

Definition distinct_unordered_pairs (G : Graph coord) : list (gset Node) :=
  nub ((fun e => unordered (edge_pair e)) <$> g_edges G).

(** No two nodes are reported as a pair in both orientations (the edge
    enumeration of an undirected graph). *)
Definition one_way (G : Graph coord) : Prop :=
  forall e1 e2, e1 ∈ g_edges G -> e2 ∈ g_edges G ->
    e_src e1 = e_tgt e2 -> e_tgt e1 = e_src e2 -> e_src e1 = e_tgt e1.

(** The node [n] has the attribute [k]. *)
Definition has_attr (G : Graph coord) (n : Node) (k : string) : bool :=
  is_Ok (G_node_attr G n k).

(** Every node and every end of an edge has a position that unpacks. *)
Definition positioned (G : Graph coord) : bool :=
  forallb (fun n => is_Ok (node_xy G n)) (G_nodes G)
  && forallb (fun e => is_Ok (node_xy G (e_src e))
                       && is_Ok (node_xy G (e_tgt e))) (g_edges G).

(** Every node has every attribute of [props]. *)
Definition has_attrs (G : Graph coord) (props : list string) : bool :=
  forallb (fun n => forallb (has_attr G n) props) (G_nodes G).

(** Every node carries a 2D position. *)
Definition node_positioned (nd : Node * gmap string (Value coord)) : bool :=
  match snd nd !! "pos" with
  | Some (VPos _ _) => true
  | _ => false
  end.

Definition every_node_positioned (G : Graph coord) : bool :=
  forallb node_positioned (g_nodes G).

(** *** Further vocabulary *)

(** The sequence of marker colors that the coloring hands to the charting
    library at the node [n], [color] being the sequence so far. *)
Definition next_colors (G : Graph coord) (cm : Method coord) (n : Node)
    (color : list (Value coord)) : list (Value coord) :=
  match cm with
  | MStr c => color ++ [color_of G c n]
  | MList l => l
  end.

(** The trace builder gets past the nodes [pre]: the traces are created,
    the loop over the edges returns, and so does the loop over the nodes
    [pre]. *)
Definition scatter_reaches (G : Graph coord) (sm cm : Method coord)
    (cs cbt : string) (ntext : list string) (se : bool) (pre : list Node)
  : bool :=
  scatter_ok cs cbt
  && is_Ok (for_each (edge_body G se) (g_edges G) edge_loop_init)
  && is_Ok (for_each (node_body G sm cm ntext) pre (node_trace_init cs cbt)).

(** The charting library accepts the marker sizes of every node: the
    sizing finds its attribute and the value is accepted, or the list
    is. *)
Definition sizes_accepted (G : Graph coord) (sm : Method coord) : bool :=
  match sm with
  | MList l => match G_nodes G with [] => true | _ :: _ => forallb marker_size_ok l end
  | MStr s =>
      forallb (fun n => match size_value G s n with
                        | Ok v => marker_size_ok v
                        | Raise _ => false
                        end) (G_nodes G)
  end.

(** The charting library accepts the marker colors of every node. *)
Definition colors_accepted (G : Graph coord) (cm : Method coord) : bool :=
  match cm with
  | MList l => match G_nodes G with [] => true | _ :: _ => forallb marker_color_ok l end
  | MStr c => forallb (fun n => marker_color_ok (color_of G c n)) (G_nodes G)
  end.

(** The marker sizes and colors of a node trace have been accepted. *)
Definition markers_valid (nt : NodeTrace coord) : Prop :=
  forallb marker_size_ok (nt_size nt) = true
  /\ forallb marker_color_ok (nt_color nt) = true.

(** The three entries of the edge trace for an edge whose ends lie at
    [fst s] and [snd s]. *)
Definition segment_x (s : (coord * coord) * (coord * coord))
  : list (option coord) :=
  [Some (fst (fst s)); Some (fst (snd s)); None].

Definition segment_y (s : (coord * coord) * (coord * coord))
  : list (option coord) :=
  [Some (snd (fst s)); Some (snd (snd s)); None].

(** The first line of the hover text of a node. *)
Definition node_label (G : Graph coord) (n : Node) : string :=
  "Node: " +:+ n +:+ "<br>Degree: " +:+ str_int (G_degree G n).

(** The hover line of the attribute [p] with the value [v]. *)
Definition hover_line (p : string) (v : Value coord) : string :=
  "<br></br>" +:+ p +:+ ": " +:+ py_str v.

(** Both ends of every edge are nodes of the graph. *)
Definition edges_in_nodes (G : Graph coord) : bool :=
  forallb (fun e => bool_decide (e_src e ∈ G_nodes G)
                    && bool_decide (e_tgt e ∈ G_nodes G)) (g_edges G).

(** The keyword arguments with another [show_edgetext], [color_method]. *)
Definition with_show_edgetext (b : bool) (a : PlotArgs coord)
  : PlotArgs coord :=
  {| title := title a; layout := layout a; size_method := size_method a;
     color_method := color_method a; node_text := node_text a;
     show_edgetext := b; titlefont_size := titlefont_size a;
     showlegend := showlegend a; annotation_text := annotation_text a;
     colorscale := colorscale a; colorbar_title := colorbar_title a |}.

Definition with_color_method (cm : Method coord) (a : PlotArgs coord)
  : PlotArgs coord :=
  {| title := title a; layout := layout a; size_method := size_method a;
     color_method := cm; node_text := node_text a;
     show_edgetext := show_edgetext a; titlefont_size := titlefont_size a;
     showlegend := showlegend a; annotation_text := annotation_text a;
     colorscale := colorscale a; colorbar_title := colorbar_title a |}.

(** A node trace with other marker colors. *)
Definition set_nt_color (color : list (Value coord)) (nt : NodeTrace coord)
  : NodeTrace coord :=
  {| nt_x := nt_x nt; nt_y := nt_y nt; nt_text := nt_text nt;
     nt_size := nt_size nt; nt_color := color;
     nt_colorscale := nt_colorscale nt;
     nt_colorbar_title := nt_colorbar_title nt |}.

(** A figure with other marker colors. *)
Definition set_colors (color : list (Value coord)) (fig : Figure coord)
  : Figure coord :=
  {| fig_edge_trace := fig_edge_trace fig;
     fig_node_trace := set_nt_color color (fig_node_trace fig);
     fig_middle_node_trace := fig_middle_node_trace fig;
     fig_title := fig_title fig;
     fig_titlefont_size := fig_titlefont_size fig;
     fig_showlegend := fig_showlegend fig;
     fig_annotations := fig_annotations fig |}.

(** A figure without its hover markers. *)
Definition without_hover (fig : Figure coord) : Figure coord :=
  {| fig_edge_trace := fig_edge_trace fig;
     fig_node_trace := fig_node_trace fig;
     fig_middle_node_trace := {| mt_x := []; mt_y := []; mt_text := [] |};
     fig_title := fig_title fig;
     fig_titlefont_size := fig_titlefont_size fig;
     fig_showlegend := fig_showlegend fig;
     fig_annotations := fig_annotations fig |}.

(** Two node traces that differ in the marker colors only. *)
Definition same_but_color (nt1 nt2 : NodeTrace coord) : Prop :=
  nt_x nt1 = nt_x nt2 /\ nt_y nt1 = nt_y nt2 /\ nt_text nt1 = nt_text nt2
  /\ nt_size nt1 = nt_size nt2 /\ nt_colorscale nt1 = nt_colorscale nt2
  /\ nt_colorbar_title nt1 = nt_colorbar_title nt2.

(** *** Loop invariants *)

(** What the loop has built once it has processed the edges [seen]. *)
Definition edge_inv (G : Graph coord) (show_edgetext : bool)
    (seen : list (Edge coord)) (st : EdgeLoop) : Prop :=
  length (et_x (el_edge_trace st)) = 3 * length seen
  /\ length (et_y (el_edge_trace st)) = 3 * length seen
  /\ mt_text (el_middle st) = []
  /\ length (mt_x (el_middle st)) = length (mt_y (el_middle st))
  /\ if show_edgetext then
       el_edge_properties st
       = tab (fun p => aggregate p seen) (nub (edge_pair <$> seen))
       /\ Forall2 (fun p xy => pair_midpoint G p = Ok xy)
            (nub (edge_pair <$> seen))
            (zip (mt_x (el_middle st)) (mt_y (el_middle st)))
     else
       el_edge_properties st = [] /\ mt_x (el_middle st) = []
       /\ mt_y (el_middle st) = [].

(** What the loop has built once it has processed the nodes [seen]. *)
Definition node_inv (G : Graph coord) (sm cm : Method coord)
    (node_text : list string) (cs cbt : string) (seen : list Node)
    (nt : NodeTrace coord) : Prop :=
  Forall2 (fun n xy => node_xy G n = Ok xy) seen (zip (nt_x nt) (nt_y nt))
  /\ length (nt_x nt) = length seen
  /\ length (nt_y nt) = length seen
  /\ Forall2 (fun n t => hover_text G node_text n = Ok t) seen (nt_text nt)
  /\ match sm with
     | MStr s => Forall2 (fun n v => size_value G s n = Ok v) seen (nt_size nt)
     | MList l => nt_size nt = verbatim l seen
     end
  /\ match cm with
     | MStr c => nt_color nt = color_of G c <$> seen
     | MList l => nt_color nt = verbatim l seen
     end
  /\ nt_colorscale nt = cs /\ nt_colorbar_title nt = cbt.

End Vocabulary.

(** ** A concrete instance: integer coordinates *)

Module Demo.

Definition zmid (a b : Z) : Z := ((a + b) / 2)%Z.

Definition zstr (a b : Z) : string :=
  "(" +:+ str_int a +:+ ", " +:+ str_int b +:+ ")".

(** Node number [i] is placed at [(rnd + dx * i, dy * i)]. *)
Definition line_layout (dx dy : Z) (G : Graph Z) (rnd : Z)
  : Result (gmap Node (Z * Z)) :=
  Ok (list_to_map
        (imap (fun i (nd : Node * gmap string (Value Z)) =>
                 (fst nd, (rnd + dx * Z.of_nat i, dy * Z.of_nat i)%Z))
              (g_nodes G))).

(** Raises on a graph with too many edges to be planar. *)
Definition planar_or_raise (G : Graph Z) (rnd : Z)
  : Result (gmap Node (Z * Z)) :=
  if Nat.ltb (3 * length (g_nodes G)) (length (g_edges G))
  then Raise NetworkXException
  else line_layout 1 1 G 0.

Lemma imap_keys {A B C : Type} (f : nat -> A * B -> A * C) (l : list (A * B)) :
  (forall i x, fst (f i x) = fst x) -> fst <$> imap f l = fst <$> l.
Proof.
  revert f. induction l as [|x l IH]; intros f Hf; [reflexivity|].
  cbn. rewrite Hf. f_equal. apply IH. intros i y. apply Hf.
Qed.

Lemma line_layout_covers dx dy G rnd pos_dict n :
  line_layout dx dy G rnd = Ok pos_dict -> n ∈ G_nodes G ->
  is_Some (pos_dict !! n).
Proof.
  unfold line_layout. intros [= <-] Hn.
  destruct (list_to_map _ !! n) eqn:E; [eauto|].
  apply not_elem_of_list_to_map_2 in E. exfalso. apply E.
  rewrite imap_keys by reflexivity. exact Hn.
Qed.

Lemma planar_or_raise_covers G rnd pos_dict n :
  planar_or_raise G rnd = Ok pos_dict -> n ∈ G_nodes G ->
  is_Some (pos_dict !! n).
Proof.
  unfold planar_or_raise. destruct (Nat.ltb _ _); [discriminate|].
  apply line_layout_covers.
Qed.

(** The charting library of this instance: a size is a number that is not
    negative, a color a number, a hex code or one of a few names, a color
    scale one of the names of the docstring, a title font size at least
    1. *)
Definition size_ok (v : Value Z) : bool :=
  match v with VInt z => Z.leb 0 z | _ => false end.

Definition color_ok (v : Value Z) : bool :=
  match v with
  | VInt _ => true
  | VStr (String "#" _) => true
  | VStr s => bool_decide (s ∈ ["red"; "green"; "blue"; "black"; "white"])
  | VPos _ _ => false
  end.

Definition colorscale_ok (colorscale colorbar_title : string) : bool :=
  bool_decide
    (colorscale ∈ ["Greys"; "YlGnBu"; "Greens"; "YlOrRd"; "Bluered"; "RdBu";
                   "Reds"; "Blues"; "Picnic"; "Rainbow"; "Portland"; "Jet";
                   "Hot"; "Blackbody"; "Earth"; "Electric"; "Viridis"]).

Definition font_size_ok (title : string) (titlefont_size : Z)
    (showlegend : bool) (annotations : list (Annotation Z)) : bool :=
  Z.leb 1 titlefont_size.

#[global] Instance demo_libraries : Libraries Z.
Proof.
  refine {| midpoint := zmid;
            scatter_ok := colorscale_ok;
            marker_size_ok := size_ok;
            marker_color_ok := color_ok;
            layout_ok := font_size_ok;
            str_pos := zstr;
            entropy := Z;
            nx_random_layout := line_layout 1 0;
            nx_circular_layout := line_layout 1 1;
            nx_kamada_kawai_layout := line_layout 2 1;
            nx_planar_layout := planar_or_raise;
            nx_spring_layout := line_layout 1 2;
            nx_spectral_layout := line_layout 3 1;
            nx_spiral_layout := line_layout 2 3 |}.
  intros f Hf G rnd pos_dict n.
  repeat (apply elem_of_cons in Hf as [-> | Hf];
          [first [apply line_layout_covers | apply planar_or_raise_covers]|]).
  by apply elem_of_nil in Hf.
Defined.

(** A path A - B - C without attributes. *)
Definition path3 : Graph Z :=
  {| g_class := NxGraph;
     g_nodes := [("A", ∅); ("B", ∅); ("C", ∅)];
     g_edges := [mkEdge "A" "B" []; mkEdge "B" "C" []] |}.

(** Two positioned nodes joined by two parallel edges. *)
Definition parallel2 : Graph Z :=
  {| g_class := NxMultiGraph;
     g_nodes := [("a", {["pos" := VPos 0 0]}); ("b", {["pos" := VPos 4 2]})]%Z;
     g_edges := [mkEdge "a" "b" [("weight", VInt 1)];
                 mkEdge "a" "b" [("weight", VInt 2)]] |}.

(** A directed graph with an edge in each direction between its nodes. *)
Definition two_way : Graph Z :=
  {| g_class := NxDiGraph;
     g_nodes := [("a", {["pos" := VPos 0 0]}); ("b", {["pos" := VPos 4 2]})]%Z;
     g_edges := [mkEdge "a" "b" [("weight", VInt 1)];
                 mkEdge "b" "a" [("weight", VInt 2)]] |}.

(** Only the first of two nodes carries a position. *)
Definition half_placed : Graph Z :=
  {| g_class := NxGraph;
     g_nodes := [("a", {["pos" := VPos 0 0]}%Z); ("b", ∅)];
     g_edges := [mkEdge "a" "b" []] |}.

(** Node [a] has the attributes [red] and [rank], node [b] has neither. *)
Definition ranked : Graph Z :=
  {| g_class := NxGraph;
     g_nodes := [("a", {["pos" := VPos 0 0; "red" := VInt 1;
                         "rank" := VInt 7]}%Z);
                 ("b", {["pos" := VPos 1 1]}%Z)];
     g_edges := [mkEdge "a" "b" []] |}.

(** The path after the circular layout of this instance. *)
Definition path3_circular : Graph Z :=
  {| g_class := NxGraph;
     g_nodes := [("A", {["pos" := VPos 0 0]}); ("B", {["pos" := VPos 1 1]});
                 ("C", {["pos" := VPos 2 2]})]%Z;
     g_edges := [mkEdge "A" "B" []; mkEdge "B" "C" []] |}.

(** Keyword arguments. *)
Definition hover_args : PlotArgs Z :=
  {| title := "Graph"; layout := None;
     size_method := MStr "degree"; color_method := MStr "degree";
     node_text := []; show_edgetext := true; titlefont_size := 16;
     showlegend := false; annotation_text := "";
     colorscale := "YlGnBu"; colorbar_title := "" |}.

Definition red_args : PlotArgs Z :=
  {| title := "Graph"; layout := None;
     size_method := MStr "degree"; color_method := MStr "red";
     node_text := []; show_edgetext := false; titlefont_size := 16;
     showlegend := false; annotation_text := "";
     colorscale := "YlGnBu"; colorbar_title := "" |}.

Definition rank_args : PlotArgs Z :=
  {| title := "Graph"; layout := None;
     size_method := MStr "rank"; color_method := MStr "red";
     node_text := []; show_edgetext := false; titlefont_size := 16;
     showlegend := false; annotation_text := "";
     colorscale := "YlGnBu"; colorbar_title := "" |}.

Definition rank_text_args : PlotArgs Z :=
  {| title := "Graph"; layout := None;
     size_method := MStr "degree"; color_method := MStr "degree";
     node_text := ["rank"]; show_edgetext := false; titlefont_size := 16;
     showlegend := false; annotation_text := "";
     colorscale := "YlGnBu"; colorbar_title := "" |}.

Definition one_size_args : PlotArgs Z :=
  {| title := "Graph"; layout := None;
     size_method := MList [VInt 5]; color_method := MStr "degree";
     node_text := []; show_edgetext := false; titlefont_size := 16;
     showlegend := false; annotation_text := "";
     colorscale := "YlGnBu"; colorbar_title := "" |}.

(** The figures [plot] returns in this instance. *)
Definition path3_figure : Figure Z :=
  {| fig_edge_trace :=
       {| et_x := [Some 0; Some 1; None; Some 1; Some 2; None];
          et_y := [Some 0; Some 0; None; Some 0; Some 0; None] |}%Z;
     fig_node_trace :=
       {| nt_x := [0; 1; 2]%Z;
          nt_y := [0; 0; 0]%Z;
          nt_text := ["Node: A<br>Degree: 1"; "Node: B<br>Degree: 2";
                      "Node: C<br>Degree: 1"];
          nt_size := [VInt 13; VInt 14; VInt 13];
          nt_color := [VInt 1; VInt 2; VInt 1];
          nt_colorscale := "YlGnBu";
          nt_colorbar_title := "" |};
     fig_middle_node_trace := {| mt_x := []; mt_y := []; mt_text := [] |};
     fig_title := "Graph";
     fig_titlefont_size := 16;
     fig_showlegend := false;
     fig_annotations := [Caption ""] |}.

Definition parallel2_figure : Figure Z :=
  {| fig_edge_trace :=
       {| et_x := [Some 0; Some 4; None; Some 0; Some 4; None];
          et_y := [Some 0; Some 2; None; Some 0; Some 2; None] |}%Z;
     fig_node_trace :=
       {| nt_x := [0; 4]%Z;
          nt_y := [0; 2]%Z;
          nt_text := ["Node: a<br>Degree: 2"; "Node: b<br>Degree: 2"];
          nt_size := [VInt 14; VInt 14];
          nt_color := [VInt 2; VInt 2];
          nt_colorscale := "YlGnBu";
          nt_colorbar_title := "" |};
     fig_middle_node_trace :=
       {| mt_x := [2]%Z; mt_y := [1]%Z; mt_text := ["weight: [1, 2]"] |};
     fig_title := "Graph";
     fig_titlefont_size := 16;
     fig_showlegend := false;
     fig_annotations := [Caption ""] |}.

Definition two_way_figure : Figure Z :=
  {| fig_edge_trace :=
       {| et_x := [Some 0; Some 4; None; Some 4; Some 0; None];
          et_y := [Some 0; Some 2; None; Some 2; Some 0; None] |}%Z;
     fig_node_trace :=
       {| nt_x := [0; 4]%Z;
          nt_y := [0; 2]%Z;
          nt_text := ["Node: a<br>Degree: 2"; "Node: b<br>Degree: 2"];
          nt_size := [VInt 14; VInt 14];
          nt_color := [VInt 2; VInt 2];
          nt_colorscale := "YlGnBu";
          nt_colorbar_title := "" |};
     fig_middle_node_trace :=
       {| mt_x := [2; 2]%Z; mt_y := [1; 1]%Z;
          mt_text := ["weight: [1]"; "weight: [2]"] |};
     fig_title := "Graph";
     fig_titlefont_size := 16;
     fig_showlegend := false;
     fig_annotations :=
       [Caption ""; Arrow 0 0 4 2; Arrow 4 2 0 0]%Z |}.

Definition ranked_red_figure : Figure Z :=
  {| fig_edge_trace :=
       {| et_x := [Some 0; Some 1; None];
          et_y := [Some 0; Some 1; None] |}%Z;
     fig_node_trace :=
       {| nt_x := [0; 1]%Z;
          nt_y := [0; 1]%Z;
          nt_text := ["Node: a<br>Degree: 1"; "Node: b<br>Degree: 1"];
          nt_size := [VInt 13; VInt 13];
          nt_color := [VInt 1; VStr "red"];
          nt_colorscale := "YlGnBu";
          nt_colorbar_title := "" |};
     fig_middle_node_trace := {| mt_x := []; mt_y := []; mt_text := [] |};
     fig_title := "Graph";
     fig_titlefont_size := 16;
     fig_showlegend := false;
     fig_annotations := [Caption ""] |}.

Definition ranked_one_size_figure : Figure Z :=
  {| fig_edge_trace :=
       {| et_x := [Some 0; Some 1; None];
          et_y := [Some 0; Some 1; None] |}%Z;
     fig_node_trace :=
       {| nt_x := [0; 1]%Z;
          nt_y := [0; 1]%Z;
          nt_text := ["Node: a<br>Degree: 1"; "Node: b<br>Degree: 1"];
          nt_size := [VInt 5];
          nt_color := [VInt 1; VInt 1];
          nt_colorscale := "YlGnBu";
          nt_colorbar_title := "" |};
     fig_middle_node_trace := {| mt_x := []; mt_y := []; mt_text := [] |};
     fig_title := "Graph";
     fig_titlefont_size := 16;
     fig_showlegend := false;
     fig_annotations := [Caption ""] |}.

(** A graph without positions, with the attribute [score] on both nodes. *)
Definition scored : Graph Z :=
  {| g_class := NxDiGraph;
     g_nodes := [("u", {["score" := VInt 3]}); ("v", {["score" := VInt 8]})];
     g_edges := [mkEdge "u" "v" []] |}.

(** The graph [scored] after the spiral layout of this instance. *)
Definition scored_spiral : Graph Z :=
  {| g_class := NxDiGraph;
     g_nodes := [("u", {["score" := VInt 3; "pos" := VPos 0 0]});
                 ("v", {["score" := VInt 8; "pos" := VPos 2 3]})]%Z;
     g_edges := [mkEdge "u" "v" []] |}.

Definition score_args : PlotArgs Z :=
  {| title := "Scores"; layout := Some "spiral";
     size_method := MStr "score"; color_method := MStr "degree";
     node_text := ["score"]; show_edgetext := true; titlefont_size := 20;
     showlegend := true; annotation_text := "scores";
     colorscale := "Reds"; colorbar_title := "deg" |}.

Definition scored_figure : Figure Z :=
  {| fig_edge_trace :=
       {| et_x := [Some 0; Some 2; None];
          et_y := [Some 0; Some 3; None] |}%Z;
     fig_node_trace :=
       {| nt_x := [0; 2]%Z;
          nt_y := [0; 3]%Z;
          nt_text := ["Node: u<br>Degree: 1<br></br>score: 3";
                      "Node: v<br>Degree: 1<br></br>score: 8"];
          nt_size := [VInt 3; VInt 8];
          nt_color := [VInt 1; VInt 1];
          nt_colorscale := "Reds";
          nt_colorbar_title := "deg" |};
     fig_middle_node_trace :=
       {| mt_x := [1]%Z; mt_y := [1]%Z; mt_text := [""] |};
     fig_title := "Scores";
     fig_titlefont_size := 20;
     fig_showlegend := true;
     fig_annotations := [Caption "scores"; Arrow 0 0 2 3]%Z |}.

Definition unknown_layout_args : PlotArgs Z :=
  {| title := "Graph"; layout := Some "grid";
     size_method := MStr "degree"; color_method := MStr "degree";
     node_text := []; show_edgetext := false; titlefont_size := 16;
     showlegend := false; annotation_text := "";
     colorscale := "YlGnBu"; colorbar_title := "" |}.

(** One node with four self loops: too many edges for the planar layout
    of this instance. *)
Definition knotted : Graph Z :=
  {| g_class := NxMultiGraph;
     g_nodes := [("k", ∅)];
     g_edges := [mkEdge "k" "k" []; mkEdge "k" "k" []; mkEdge "k" "k" [];
                 mkEdge "k" "k" []] |}.

Definition planar_args : PlotArgs Z :=
  {| title := "Graph"; layout := Some "planar";
     size_method := MStr "degree"; color_method := MStr "degree";
     node_text := []; show_edgetext := false; titlefont_size := 16;
     showlegend := false; annotation_text := "";
     colorscale := "YlGnBu"; colorbar_title := "" |}.

(** One node whose position is a number, not a pair. *)
Definition askew : Graph Z :=
  {| g_class := NxGraph;
     g_nodes := [("a", {["pos" := VInt 5]})];
     g_edges := [] |}.

Definition notacolor_args : PlotArgs Z :=
  {| title := "Graph"; layout := None;
     size_method := MStr "degree"; color_method := MStr "notacolor";
     node_text := []; show_edgetext := false; titlefont_size := 16;
     showlegend := false; annotation_text := "";
     colorscale := "YlGnBu"; colorbar_title := "" |}.

(** The positions the circular layout of this instance gives two nodes. *)
Definition circular_ab : gmap string (Z * Z) :=
  {["a" := (0, 0); "b" := (1, 1)]}%Z.

End Demo.

(** * Properties *)

(** ** Results and loops *)

Lemma bind_Ok_inv {A B} (m : Result A) (f : A -> Result B) b :
  m ≫= f = Ok b -> exists a, m = Ok a /\ f a = Ok b.
Proof. destruct m as [a|e]; [eauto | discriminate]. Qed.

Lemma is_Ok_true {A} (r : Result A) : is_Ok r = true <-> exists a, r = Ok a.
Proof.
  destruct r; split; eauto; try discriminate. intros [? ?]; discriminate.
Qed.

Lemma is_Ok_false {A} (r : Result A) :
  is_Ok r = false <-> exists e, r = Raise e.
Proof.
  destruct r; split; eauto; try discriminate. intros [? ?]; discriminate.
Qed.

(** Splits a hypothesis [m ≫= f = Ok b] into its two steps. *)
Ltac bind_inv H :=
  let a := fresh "r" in
  let H1 := fresh "E" in
  apply bind_Ok_inv in H as (a & H1 & H).

Section ForEach.
Context {S A : Type} (body : S -> A -> Result S).

Lemma for_each_app l1 l2 s :
  for_each body (l1 ++ l2) s = for_each body l1 s ≫= for_each body l2.
Proof.
  revert s. induction l1 as [|a l1 IH]; intros s; [reflexivity|].
  cbn. destruct (body s a) as [s'|e]; [apply IH | reflexivity].
Qed.

(** An invariant indexed by the elements already processed. *)
Lemma for_each_invariant (P : list A -> S -> Prop) l s0 s :
  P [] s0 ->
  (forall seen a s1 s2, P seen s1 -> body s1 a = Ok s2 -> P (seen ++ [a]) s2) ->
  for_each body l s0 = Ok s -> P l s.
Proof.
  intros H0 Hstep.
  enough (forall seen s1, P seen s1 -> for_each body l s1 = Ok s ->
                          P (seen ++ l) s) as Hgen by (apply (Hgen []); done).
  induction l as [|a l IH]; intros seen s1 HP Hrun.
  - injection Hrun as <-. by rewrite app_nil_r.
  - cbn in Hrun. bind_inv Hrun.
    rewrite cons_middle, app_assoc.
    eapply IH; eauto.
Qed.

(** The loop returns when its body does on every element. *)
Lemma for_each_total l s :
  (forall a s1, a ∈ l -> is_Ok (body s1 a) = true) ->
  is_Ok (for_each body l s) = true.
Proof.
  revert s. induction l as [|a l IH]; intros s Hb; [reflexivity|].
  cbn. destruct (body s a) as [s'|e] eqn:E.
  - apply IH. intros; apply Hb. by right.
  - specialize (Hb a s (list_elem_of_here _ _)). by rewrite E in Hb.
Qed.

(** When the loop returns, the body has returned on every element. *)
Lemma for_each_Ok_elem l s s' a :
  for_each body l s = Ok s' -> a ∈ l -> exists s1, is_Ok (body s1 a) = true.
Proof.
  revert s. induction l as [|b l IH]; intros s Hrun Ha.
  - by apply elem_of_nil in Ha.
  - cbn in Hrun. bind_inv Hrun. apply elem_of_cons in Ha as [->|Ha].
    + exists s. by rewrite E.
    + eauto.
Qed.

(** The loop raises where its body first does. *)
Lemma for_each_raise_at pre a post s s1 e :
  for_each body pre s = Ok s1 -> body s1 a = Raise e ->
  for_each body (pre ++ a :: post) s = Raise e.
Proof.
  intros Hpre Ha. rewrite for_each_app, Hpre. cbn. by rewrite Ha.
Qed.

(** The loop returns, and keeps [P], when its body does from every state
    that satisfies [P]. *)
Lemma for_each_total_with (P : S -> Prop) l s :
  P s ->
  (forall a s1, a ∈ l -> P s1 -> exists s2, body s1 a = Ok s2 /\ P s2) ->
  exists s', for_each body l s = Ok s' /\ P s'.
Proof.
  revert s. induction l as [|a l IH]; intros s HP Hstep; [by exists s|].
  destruct (Hstep a s (list_elem_of_here _ _) HP) as (s2 & E & HP2).
  cbn. rewrite E. cbn. apply IH; [done|].
  intros b s1 Hb. apply Hstep. by right.
Qed.

End ForEach.

Section TwoLoops.
Context {S1 S2 A : Type}.
Context (body1 : S1 -> A -> Result S1) (body2 : S2 -> A -> Result S2).

(** Two loops over the same list that both return keep a relation that
    their bodies keep. *)
Lemma for_each_both_Ok (R : S1 -> S2 -> Prop) l s1 s2 u1 u2 :
  R s1 s2 ->
  (forall a t1 t2 v1 v2, a ∈ l -> R t1 t2 ->
     body1 t1 a = Ok v1 -> body2 t2 a = Ok v2 -> R v1 v2) ->
  for_each body1 l s1 = Ok u1 -> for_each body2 l s2 = Ok u2 -> R u1 u2.
Proof.
  revert s1 s2. induction l as [|a l IH]; intros s1 s2 HR Hstep H1 H2.
  - injection H1 as <-. by injection H2 as <-.
  - cbn in H1, H2. bind_inv H1. bind_inv H2.
    apply (IH r r0); auto.
    + apply (Hstep a s1 s2); auto. left.
    + intros b t1 t2 v1 v2 Hb. apply Hstep. by right.
Qed.

(** The second loop returns when the first does and each step of the
    first can be followed by a step of the second. *)
Lemma for_each_simulation (R : S1 -> S2 -> Prop) l s1 s2 u1 :
  R s1 s2 ->
  (forall a t1 t2 v1, a ∈ l -> R t1 t2 -> body1 t1 a = Ok v1 ->
     exists v2, body2 t2 a = Ok v2 /\ R v1 v2) ->
  for_each body1 l s1 = Ok u1 ->
  exists u2, for_each body2 l s2 = Ok u2 /\ R u1 u2.
Proof.
  revert s1 s2. induction l as [|a l IH]; intros s1 s2 HR Hstep H1.
  - injection H1 as <-. by exists s2.
  - cbn in H1. bind_inv H1.
    destruct (Hstep a s1 s2 r (list_elem_of_here _ _) HR E) as (v2 & E2 & HR2).
    cbn. rewrite E2. cbn. apply (IH r v2); auto.
    intros b t1 t2 v1 Hb. apply Hstep. by right.
Qed.

End TwoLoops.

(** ** First-seen elements *)

Section NubFacts.
Context {A : Type} `{EqDecision A}.

Lemma elem_of_nub (x : A) l : x ∈ nub l <-> x ∈ l.
Proof.
  induction l as [|a l IH]; [reflexivity|].
  cbn [nub]. rewrite !elem_of_cons, list_elem_of_filter, IH.
  destruct (decide (x = a)); tauto.
Qed.

Lemma NoDup_nub (l : list A) : NoDup (nub l).
Proof.
  induction l as [|a l IH]; [constructor|].
  cbn [nub]. apply NoDup_cons. split.
  - rewrite list_elem_of_filter. tauto.
  - by apply NoDup_filter.
Qed.

Lemma nub_snoc (l : list A) x :
  nub (l ++ [x]) = if decide (x ∈ l) then nub l else nub l ++ [x].
Proof.
  induction l as [|a l IH]; [reflexivity|].
  cbn [app nub]. rewrite IH.
  destruct (decide (x ∈ a :: l)) as [Hin|Hnin];
    destruct (decide (x ∈ l)) as [Hin'|Hnin']; try reflexivity.
  - apply elem_of_cons in Hin as [->|?]; [|contradiction].
    rewrite filter_app, filter_cons_False, filter_nil, app_nil_r by tauto.
    reflexivity.
  - exfalso. apply Hnin. by right.
  - rewrite filter_app, filter_cons_True; [reflexivity|].
    intros ->. apply Hnin. left.
Qed.

End NubFacts.

Lemma nub_snoc_new {A : Type} `{EqDecision A} (l : list A) x :
  x ∉ l -> nub (l ++ [x]) = nub l ++ [x].
Proof. intros Hx. rewrite nub_snoc. by rewrite decide_False. Qed.

(** The first-seen elements are as many as the distinct elements. *)
Lemma length_nub {A : Type} `{Countable A} (l : list A) :
  length (nub l) = size (list_to_set l : gset A).
Proof.
  change (size (list_to_set l : gset A))
    with (length (elements (list_to_set l : gset A))).
  apply Permutation_length, NoDup_Permutation.
  - apply NoDup_nub.
  - apply NoDup_elements.
  - intros x. rewrite elem_of_nub, elem_of_elements, elem_of_list_to_set.
    reflexivity.
Qed.


(** ** Ordered dictionaries given by a key list and a function *)

Section Tabulate.
Context {K V : Type} `{EqDecision K}.

Lemma od_keys_tab (f : K -> V) (ks : list K) : od_keys (tab f ks) = ks.
Proof.
  unfold od_keys, tab. rewrite <- list_fmap_compose.
  induction ks; cbn; congruence.
Qed.

Lemma tab_ext (f g : K -> V) ks :
  (forall k, k ∈ ks -> f k = g k) -> tab f ks = tab g ks.
Proof.
  intros Hfg. apply list_fmap_ext. intros i k Hk.
  rewrite (Hfg k); [reflexivity|]. eapply list_elem_of_lookup_2; eauto.
Qed.

Lemma tab_snoc (f : K -> V) ks k : tab f (ks ++ [k]) = tab f ks ++ [(k, f k)].
Proof. unfold tab. by rewrite fmap_app. Qed.

Lemma od_get_tab (f : K -> V) ks k :
  od_get k (tab f ks) = if decide (k ∈ ks) then Some (f k) else None.
Proof.
  unfold tab. induction ks as [|k' ks IH]; cbn.
  - rewrite decide_False; [reflexivity | apply not_elem_of_nil].
  - destruct (decide (k = k')) as [->|Hne].
    + rewrite decide_True by left. reflexivity.
    + rewrite IH. destruct (decide (k ∈ ks)).
      * rewrite decide_True by (by right). reflexivity.
      * rewrite decide_False by (rewrite elem_of_cons; tauto).
        reflexivity.
Qed.

Lemma od_mem_tab (f : K -> V) ks k :
  od_mem k (tab f ks) = bool_decide (k ∈ ks).
Proof.
  unfold od_mem. rewrite od_get_tab.
  destruct (decide (k ∈ ks)).
  - by rewrite bool_decide_eq_true_2.
  - by rewrite bool_decide_eq_false_2.
Qed.

(** Writing a new key appends it. *)
Lemma od_set_tab_new (f g : K -> V) ks k v :
  k ∉ ks -> (forall k', k' ∈ ks -> g k' = f k') -> g k = v ->
  od_set k v (tab f ks) = tab g (ks ++ [k]).
Proof.
  intros Hk Hg <-. rewrite tab_snoc. unfold tab.
  induction ks as [|k' ks IH]; [reflexivity|].
  cbn. rewrite decide_False by (intros Heq; apply Hk; rewrite Heq; left).
  rewrite <- Hg by left. f_equal. apply IH.
  - intros ?; apply Hk. by right.
  - intros; apply Hg. by right.
Qed.

(** Writing a key that is present changes its value in place. *)
Lemma od_set_tab_old (f g : K -> V) ks k v :
  NoDup ks -> k ∈ ks -> (forall k', k' ∈ ks -> k' <> k -> g k' = f k') ->
  g k = v -> od_set k v (tab f ks) = tab g ks.
Proof.
  intros Hnd Hk Hg <-.
  induction ks as [|k' ks IH]; [by apply elem_of_nil in Hk|].
  apply NoDup_cons in Hnd as [Hk' Hnd]. unfold tab in *. cbn.
  destruct (decide (k = k')) as [->|Hne].
  - f_equal. apply tab_ext. intros k Hin. symmetry. apply Hg; [by right|].
    intros ->. contradiction.
  - rewrite <- (Hg k') by (auto; left). f_equal.
    apply elem_of_cons in Hk as [?|Hk]; [contradiction|].
    apply IH; auto. intros; apply Hg; auto. by right.
Qed.

(** [if k not in d: d[k] = v0] on a dictionary over first-seen keys. *)
Lemma od_ensure_tab (f : K -> V) (v0 : V) keys k :
  (k ∉ keys -> f k = v0) ->
  (if od_mem k (tab f (nub keys)) then tab f (nub keys)
   else od_set k v0 (tab f (nub keys))) = tab f (nub (keys ++ [k])).
Proof.
  intros Hf. rewrite od_mem_tab, nub_snoc.
  destruct (decide (k ∈ keys)) as [Hin|Hnin].
  - rewrite bool_decide_eq_true_2 by (by apply elem_of_nub). reflexivity.
  - rewrite bool_decide_eq_false_2 by (by rewrite elem_of_nub).
    apply od_set_tab_new; auto. by rewrite elem_of_nub.
Qed.

Lemma od_update_tab (f g : K -> V) keys k v :
  k ∈ keys -> (forall k', k' <> k -> g k' = f k') -> g k = v ->
  od_set k v (tab f (nub keys)) = tab g (nub keys).
Proof.
  intros Hin Hg Hv. apply od_set_tab_old; auto using NoDup_nub.
  by apply elem_of_nub.
Qed.

End Tabulate.

Lemma forallb_elem_of {A} (f : A -> bool) (l : list A) :
  forallb f l = true <-> forall x, x ∈ l -> f x = true.
Proof.
  induction l as [|a l IH]; cbn.
  - split; [|done]. intros _ x Hx. by apply elem_of_nil in Hx.
  - rewrite andb_true_iff, IH. split.
    + intros [Ha Hl] x Hx. apply elem_of_cons in Hx as [->|Hx]; auto.
    + intros Hall. split; [apply Hall; left|]. intros x Hx. apply Hall.
      by right.
Qed.

(** ** The graph and the layout step *)

Section LayoutFacts.
Context {coord : Type} `{Libraries coord}.

Lemma od_get_member {V : Type} (n : Node) (d : list (Node * V)) :
  n ∈ od_keys d -> is_Some (od_get n d).
Proof.
  unfold od_keys. induction d as [|[k v] d IH]; cbn; intros Hn.
  - by apply elem_of_nil in Hn.
  - destruct (decide (n = k)); [eauto|].
    apply elem_of_cons in Hn as [?|Hn]; [contradiction | auto].
Qed.

(** [G.nodes[n]] does not raise on a node of the graph. *)
Lemma G_node_member (G : Graph coord) n :
  n ∈ G_nodes G -> exists d, G_node G n = Ok d.
Proof.
  intros Hn. apply od_get_member in Hn as [d Hd].
  exists d. unfold G_node. by rewrite Hd.
Qed.

Lemma set_node_attributes_nodes (G : Graph coord) values name :
  G_nodes (set_node_attributes G values name) = G_nodes G.
Proof.
  unfold G_nodes, od_keys. cbn. rewrite <- list_fmap_compose.
  apply list_fmap_ext. intros i [n d] _. cbn. by destruct (values !! n).
Qed.

Lemma G_degree_edges (G G' : Graph coord) n :
  g_edges G' = g_edges G -> G_degree G' n = G_degree G n.
Proof. unfold G_degree. by intros ->. Qed.

Lemma layout_functions_known name f :
  od_get name layout_functions = Some f ->
  f ∈ [nx_random_layout; nx_circular_layout; nx_kamada_kawai_layout;
       nx_planar_layout; nx_spring_layout; nx_spectral_layout;
       nx_spiral_layout].
Proof.
  unfold layout_functions. cbn.
  repeat (case_decide; [intros [= <-]; set_solver|]). discriminate.
Qed.

(** After [_apply_layout] the graph has the same nodes and edges, and every
    node carries the position the layout algorithm returned. *)
Lemma apply_layout_spec (G G' : Graph coord) name rnd :
  _apply_layout G name rnd = Ok G' ->
  G_nodes G' = G_nodes G /\ g_edges G' = g_edges G
  /\ g_class G' = g_class G /\ every_node_positioned G' = true.
Proof.
  unfold _apply_layout. destruct (od_get name layout_functions) as [f|] eqn:Ef;
    [|discriminate].
  intros Hrun. bind_inv Hrun. injection Hrun as <-.
  split; [apply set_node_attributes_nodes|]. do 2 (split; [reflexivity|]).
  apply layout_functions_known in Ef.
  unfold every_node_positioned. apply forallb_elem_of.
  intros [n d] Hnd. cbn in Hnd.
  apply list_elem_of_fmap in Hnd as ([n0 d0] & Heq & Hin). cbn in Heq.
  assert (n0 ∈ G_nodes G) as Hn0.
  { unfold G_nodes, od_keys. apply list_elem_of_fmap. by exists (n0, d0). }
  destruct (layout_covers_nodes f Ef G rnd r n0 E Hn0) as [[x y] Hxy].
  unfold pos_values in Heq. rewrite lookup_fmap, Hxy in Heq. cbn in Heq.
  injection Heq as -> ->. unfold node_positioned. cbn.
  by rewrite lookup_insert_eq.
Qed.

Lemma get_node_attributes_nil (G : Graph coord) name :
  get_node_attributes G name = [] <->
  forall nd, nd ∈ g_nodes G -> snd nd !! name = None.
Proof.
  unfold get_node_attributes. induction (g_nodes G) as [|[n d] l IH]; cbn.
  - split; [|done]. intros _ nd Hnd. by apply elem_of_nil in Hnd.
  - destruct (d !! name) eqn:Ed; cbn.
    + split; [discriminate|]. intros Hall.
      specialize (Hall (n, d) (list_elem_of_here _ _)). cbn in Hall. congruence.
    + rewrite IH. split.
      * intros Hall nd Hnd. apply elem_of_cons in Hnd as [->|Hnd]; auto.
      * intros Hall nd Hnd. apply Hall. by right.
Qed.

(** The layout step keeps the nodes, the edges and the class of the graph. *)
Lemma layout_step_frame (G G' : Graph coord) layout rnd :
  plot_layout_step G layout rnd = Ok G' ->
  G_nodes G' = G_nodes G /\ g_edges G' = g_edges G /\ g_class G' = g_class G.
Proof.
  unfold plot_layout_step. intros Hrun.
  destruct (layout_given layout).
  - apply apply_layout_spec in Hrun. tauto.
  - destruct (get_node_attributes G "pos").
    + apply apply_layout_spec in Hrun. tauto.
    + by injection Hrun as <-.
Qed.

Lemma length_G_nodes (G : Graph coord) :
  length (G_nodes G) = length (g_nodes G).
Proof. unfold G_nodes, od_keys. apply length_fmap. Qed.

End LayoutFacts.

(** ** The loop over the edges *)

Section EdgeLoopFacts.
Context {coord : Type} `{Libraries coord}.

Lemma pair_items_snoc p (seen : list (Edge coord)) e :
  pair_items p (seen ++ [e])
  = pair_items p seen ++ (if decide (edge_pair e = p) then e_data e else []).
Proof.
  unfold pair_items. rewrite filter_app, fmap_app, join_app. f_equal.
  rewrite filter_cons, filter_nil.
  destruct (decide (edge_pair e = p)); cbn; by rewrite ?app_nil_r.
Qed.

Lemma values_of_snoc k (items : list (string * Value coord)) kv :
  values_of k (items ++ [kv])
  = values_of k items ++ (if decide (fst kv = k) then [snd kv] else []).
Proof.
  unfold values_of. rewrite filter_app, fmap_app. f_equal.
  rewrite filter_cons, filter_nil. by destruct (decide (fst kv = k)).
Qed.

Lemma values_of_absent k (items : list (string * Value coord)) :
  k ∉ fst <$> items -> values_of k items = [].
Proof.
  unfold values_of. induction items as [|kv items IH]; [reflexivity|].
  intros Hk. rewrite fmap_cons, not_elem_of_cons in Hk. destruct Hk as [Hne Hk].
  rewrite filter_cons_False by congruence. auto.
Qed.

(** Lines 192-196 add one item to the grouping. *)
Lemma add_property_group (items : list (string * Value coord)) kv :
  add_property (group_by_key items) kv = group_by_key (items ++ [kv]).
Proof.
  unfold add_property, group_by_key.
  rewrite (od_ensure_tab _ [] (fst <$> items) (fst kv))
    by apply values_of_absent.
  rewrite fmap_app. cbn [fmap list_fmap].
  assert (fst kv ∈ (fst <$> items) ++ [fst kv]) as Hin
    by (apply elem_of_app; right; left).
  rewrite od_get_tab, decide_True by (by apply elem_of_nub). cbn.
  apply od_update_tab; [done| |].
  - intros k' Hne. rewrite values_of_snoc, decide_False by congruence.
    by rewrite app_nil_r.
  - rewrite values_of_snoc, decide_True by done. reflexivity.
Qed.

Lemma fold_add_property (items data : list (string * Value coord)) :
  fold_left add_property data (group_by_key items)
  = group_by_key (items ++ data).
Proof.
  revert items. induction data as [|kv data IH]; intros items; cbn.
  - by rewrite app_nil_r.
  - rewrite add_property_group, IH, <- app_assoc. reflexivity.
Qed.

Lemma aggregate_absent p (seen : list (Edge coord)) :
  p ∉ edge_pair <$> seen -> aggregate p seen = [].
Proof.
  intros Hp. unfold aggregate, pair_items.
  replace (filter (fun e => edge_pair e = p) seen) with (@nil (Edge coord));
    [reflexivity|].
  induction seen as [|e seen IH]; [reflexivity|].
  rewrite fmap_cons, not_elem_of_cons in Hp. destruct Hp as [Hne Hp].
  rewrite filter_cons_False by congruence. auto.
Qed.

Lemma edge_body_inv G se seen e st st' :
  edge_inv G se seen st -> edge_body G se st e = Ok st' ->
  edge_inv G se (seen ++ [e]) st'.
Proof.
  intros (Hx & Hy & Ht & Hlen & Hprops) Hrun. unfold edge_body in Hrun.
  bind_inv Hrun. bind_inv Hrun. rename r into xy0, r0 into xy1.
  unfold edge_inv. rewrite length_app. cbn [length].
  destruct se.
  - destruct Hprops as [Hprops Hmid]. injection Hrun as <-. cbn.
    rewrite !length_app, Hx, Hy. cbn.
    rewrite Hprops, fmap_app. cbn [fmap list_fmap].
    rewrite od_mem_tab, nub_snoc.
    assert (edge_pair e ∈ (edge_pair <$> seen) ++ [edge_pair e]) as Hin
      by (apply elem_of_app; right; left).
    destruct (decide (edge_pair e ∈ edge_pair <$> seen)) as [Hold|Hnew].
    + rewrite bool_decide_eq_true_2 by (by apply elem_of_nub).
      rewrite od_get_tab, decide_True by (by apply elem_of_nub). cbn.
      repeat split; try lia; try done.
      unfold aggregate at 1. rewrite fold_add_property.
      apply od_update_tab; [done| |].
      * intros p Hne. unfold aggregate.
        rewrite pair_items_snoc, decide_False by congruence.
        by rewrite app_nil_r.
      * unfold aggregate. rewrite pair_items_snoc, decide_True by done.
        reflexivity.
    + rewrite bool_decide_eq_false_2 by (by rewrite elem_of_nub). cbn.
      rewrite !length_app, Hlen. repeat split; try lia; try done.
      * rewrite (od_set_tab_new _ (fun p => aggregate p seen) _ _ [])
          by (rewrite ?elem_of_nub; auto using aggregate_absent).
        rewrite od_get_tab, decide_True
          by (apply elem_of_app; right; left).
        cbn. unfold aggregate at 1. rewrite fold_add_property.
        rewrite <- nub_snoc_new by done.
        apply od_update_tab; [done| |].
        -- intros p Hne. unfold aggregate.
           rewrite pair_items_snoc, decide_False by congruence.
           by rewrite app_nil_r.
        -- unfold aggregate. rewrite pair_items_snoc, decide_True by done.
           reflexivity.
      * rewrite zip_with_app by done. apply Forall2_app; [done|].
        constructor; [|constructor].
        unfold pair_midpoint. cbn. by rewrite E, E0.
  - destruct Hprops as (Hprops & Hmx & Hmy). injection Hrun as <-. cbn.
    rewrite !length_app, Hx, Hy. cbn. repeat split; try lia; done.
Qed.

Lemma edge_loop_inv G se st :
  for_each (edge_body G se) (g_edges G) edge_loop_init = Ok st ->
  edge_inv G se (g_edges G) st.
Proof.
  apply (for_each_invariant _ (edge_inv G se)).
  - unfold edge_inv. cbn. destruct se; repeat split; constructor.
  - intros seen e s1 s2. apply edge_body_inv.
Qed.

End EdgeLoopFacts.

(** ** The loop over the nodes *)

Section NodeLoopFacts.
Context {coord : Type} `{Libraries coord}.

Lemma verbatim_snoc (l : list (Value coord)) seen (n : Node) :
  verbatim l (seen ++ [n]) = l.
Proof. by destruct seen. Qed.

Lemma validated_Ok (ok : Value coord -> bool) l l' :
  validated ok l = Ok l' -> l' = l /\ forallb ok l = true.
Proof.
  unfold validated. destruct (forallb ok l); [|discriminate].
  by intros [= <-].
Qed.

Lemma validated_accepted (ok : Value coord -> bool) l :
  forallb ok l = true -> validated ok l = Ok l.
Proof. unfold validated. by intros ->. Qed.

Lemma color_entry_spec (G : Graph coord) cm n color color' :
  color_entry G cm n color = Ok color' ->
  match cm with
  | MStr c => color' = color ++ [color_of G c n]
  | MList l => color' = l
  end.
Proof.
  unfold color_entry, color_of, color_value, G_node. destruct cm as [c|l].
  - destruct (decide (c = "degree")); [by intros [-> _]%validated_Ok|].
    destruct (od_get n (g_nodes G)) as [d|]; [|discriminate]. cbn.
    destruct (d !! c); by intros [-> _]%validated_Ok.
  - by intros [-> _]%validated_Ok.
Qed.

(** What the charting library has accepted. *)
Lemma color_entry_valid (G : Graph coord) cm n color color' :
  color_entry G cm n color = Ok color' ->
  forallb marker_color_ok color' = true.
Proof.
  unfold color_entry, G_node. destruct cm as [c|l].
  - destruct (decide (c = "degree")); [by intros [-> ?]%validated_Ok|].
    destruct (od_get n (g_nodes G)) as [d|]; [|discriminate]. cbn.
    destruct (d !! c); by intros [-> ?]%validated_Ok.
  - by intros [-> ?]%validated_Ok.
Qed.

Lemma size_entry_spec (G : Graph coord) sm n size size' :
  size_entry G sm n size = Ok size' ->
  match sm with
  | MStr s => exists v, size_value G s n = Ok v /\ size' = size ++ [v]
  | MList l => size' = l
  end.
Proof.
  unfold size_entry, size_value. destruct sm as [s|l].
  - destruct (decide (s = "degree")); [intros [-> _]%validated_Ok; eauto|].
    destruct (decide (s = "static")); [intros [-> _]%validated_Ok; eauto|].
    intros Hrun. bind_inv Hrun. apply validated_Ok in Hrun as [-> _]. eauto.
  - by intros [-> _]%validated_Ok.
Qed.

Lemma size_entry_valid (G : Graph coord) sm n size size' :
  size_entry G sm n size = Ok size' -> forallb marker_size_ok size' = true.
Proof.
  unfold size_entry. destruct sm as [s|l].
  - destruct (decide (s = "degree")); [by intros [-> ?]%validated_Ok|].
    destruct (decide (s = "static")); [by intros [-> ?]%validated_Ok|].
    intros Hrun. bind_inv Hrun. by apply validated_Ok in Hrun as [-> ?].
  - by intros [-> ?]%validated_Ok.
Qed.

Lemma node_body_inv G sm cm node_text cs cbt seen n nt nt' :
  node_inv G sm cm node_text cs cbt seen nt ->
  node_body G sm cm node_text nt n = Ok nt' ->
  node_inv G sm cm node_text cs cbt (seen ++ [n]) nt'.
Proof.
  intros (Hxy & Hx & Hy & Ht & Hs & Hc & Hcs & Hcbt) Hrun.
  unfold node_body in Hrun. do 4 bind_inv Hrun.
  rename r into xy, r0 into text, r1 into size, r2 into color.
  injection Hrun as <-. unfold node_inv. cbn.
  apply size_entry_spec in E1. apply color_entry_spec in E2.
  rewrite !length_app, Hx, Hy. cbn.
  split; [|split; [lia|split; [lia|split; [|split; [|split]]]]].
  - rewrite zip_with_app by lia. apply Forall2_app; [done|].
    constructor; [|constructor]. by destruct xy.
  - apply Forall2_app; [done|]. constructor; [|constructor].
    unfold hover_text. by rewrite E0.
  - destruct sm as [s|l].
    + destruct E1 as (v & Hv & ->). apply Forall2_app; [done|].
      by constructor; [|constructor].
    + by rewrite verbatim_snoc.
  - destruct cm as [c|l].
    + by rewrite E2, Hc, fmap_app.
    + by rewrite verbatim_snoc.
  - done.
Qed.

Lemma node_loop_inv G sm cm node_text cs cbt nt :
  for_each (node_body G sm cm node_text) (G_nodes G) (node_trace_init cs cbt)
  = Ok nt ->
  node_inv G sm cm node_text cs cbt (G_nodes G) nt.
Proof.
  apply (for_each_invariant _ (node_inv G sm cm node_text cs cbt)).
  - unfold node_inv. cbn. destruct sm, cm; repeat split; constructor.
  - intros seen n s1 s2. apply node_body_inv.
Qed.

End NodeLoopFacts.

(** ** The traces and the figure *)

Section FigureFacts.
Context {coord : Type} `{Libraries coord}.

Lemma scatter_trace_Ok_inv (G : Graph coord) sm cm cs cbt ntext se r :
  _generate_scatter_trace G sm cm cs cbt ntext se = Ok r ->
  scatter_ok cs cbt = true /\ scatter_loops G sm cm cs cbt ntext se = Ok r.
Proof.
  unfold _generate_scatter_trace. by destruct (scatter_ok cs cbt).
Qed.

Lemma scatter_trace_spec (G : Graph coord) sm cm cs cbt ntext se nt et mt :
  _generate_scatter_trace G sm cm cs cbt ntext se = Ok (nt, et, mt) ->
  node_inv G sm cm ntext cs cbt (G_nodes G) nt
  /\ length (et_x et) = 3 * length (g_edges G)
  /\ length (et_y et) = 3 * length (g_edges G)
  /\ length (mt_x mt) = length (mt_y mt)
  /\ if se then
       mt_text mt
       = (fun p => edge_text (aggregate p (g_edges G))) <$> distinct_pairs G
       /\ Forall2 (fun p xy => pair_midpoint G p = Ok xy)
            (distinct_pairs G) (zip (mt_x mt) (mt_y mt))
     else mt_x mt = [] /\ mt_y mt = [] /\ mt_text mt = [].
Proof.
  intros Hrun. apply scatter_trace_Ok_inv in Hrun as [_ Hrun].
  unfold scatter_loops in Hrun. do 2 bind_inv Hrun.
  injection Hrun as <- <- <-.
  apply node_loop_inv in E0. apply edge_loop_inv in E.
  destruct E as (Hx & Hy & Ht & Hlen & Hprops).
  split; [done|]. do 2 (split; [done|]).
  destruct se; cbn.
  - destruct Hprops as [-> Hmid]. split; [done|]. split; [|done].
    unfold distinct_pairs, tab. by rewrite <- list_fmap_compose.
  - tauto.
Qed.

(** The edge loop has read the position of both ends of every edge. *)
Lemma scatter_trace_edges (G : Graph coord) sm cm cs cbt ntext se r e :
  _generate_scatter_trace G sm cm cs cbt ntext se = Ok r -> e ∈ g_edges G ->
  is_Ok (arrow_of G e) = true.
Proof.
  intros Hrun He. apply scatter_trace_Ok_inv in Hrun as [_ Hrun].
  unfold scatter_loops in Hrun. bind_inv Hrun.
  destruct (for_each_Ok_elem _ _ _ _ e E He) as [st Hst].
  unfold edge_body in Hst. unfold arrow_of.
  destruct (node_xy G (e_src e)); [|discriminate]. cbn in *.
  by destruct (node_xy G (e_tgt e)).
Qed.

Lemma arrow_body_spec (G : Graph coord) anns e :
  arrow_body G anns e = arrow_of G e ≫= fun a => Ok (anns ++ [a]).
Proof.
  unfold arrow_body, arrow_of, pos_index, node_xy.
  destruct (G_node_attr G (e_src e) "pos") as [[]|]; try reflexivity.
  cbn. destruct (G_node_attr G (e_tgt e) "pos") as [[]|]; reflexivity.
Qed.

Lemma arrow_loop_spec (G : Graph coord) edges anns anns' :
  for_each (arrow_body G) edges anns = Ok anns' ->
  exists arrows, anns' = anns ++ arrows
                 /\ Forall2 (fun e a => arrow_of G e = Ok a) edges arrows.
Proof.
  revert anns. induction edges as [|e edges IH]; intros anns Hrun.
  - injection Hrun as <-. exists []. by rewrite app_nil_r.
  - cbn in Hrun. rewrite arrow_body_spec in Hrun. bind_inv Hrun.
    bind_inv E. rename r0 into arrow. injection E as <-.
    destruct (IH _ Hrun) as (arrows & -> & Hall).
    exists (arrow :: arrows). rewrite <- app_assoc. split; [done|].
    by constructor.
Qed.

Lemma generate_figure_spec (G : Graph coord) nt et mt t tf sl atext fig :
  _generate_figure G nt et mt t tf sl atext = Ok fig ->
  fig_node_trace fig = nt /\ fig_edge_trace fig = et
  /\ fig_middle_node_trace fig = mt
  /\ exists arrows,
       fig_annotations fig = Caption atext :: arrows
       /\ if is_directed_class (g_class G)
          then Forall2 (fun e a => arrow_of G e = Ok a) (g_edges G) arrows
          else arrows = [].
Proof.
  unfold _generate_figure. intros Hrun. bind_inv Hrun.
  destruct (layout_ok t tf sl r); [|discriminate]. injection Hrun as <-.
  cbn. do 3 (split; [done|]).
  destruct (is_directed_class (g_class G)).
  - apply arrow_loop_spec in E as (arrows & -> & Hall). eauto.
  - injection E as <-. eauto.
Qed.

(** The figure is assembled without error once the positions of the ends
    of the edges can be read and the charting library accepts the
    layout. *)
Lemma generate_figure_total (G : Graph coord) nt et mt t tf sl atext :
  (forall e, e ∈ g_edges G -> is_Ok (arrow_of G e) = true) ->
  (forall anns, layout_ok t tf sl anns = true) ->
  is_Ok (_generate_figure G nt et mt t tf sl atext) = true.
Proof.
  intros Hall Hlayout. unfold _generate_figure.
  destruct (is_directed_class (g_class G)); [|cbn; by rewrite Hlayout].
  assert (is_Ok (for_each (arrow_body G) (g_edges G) [Caption atext]) = true)
    as Ht.
  { apply for_each_total. intros e anns He. rewrite arrow_body_spec.
    specialize (Hall e He). by destruct (arrow_of G e). }
  apply is_Ok_true in Ht as [anns ->]. cbn. by rewrite Hlayout.
Qed.

(** [plot] in three steps. *)
Lemma plot_Ok_inv (G : Graph coord) a rnd fig :
  plot G a rnd = Ok fig ->
  exists G' nt et mt,
    plot_layout_step G (layout a) rnd = Ok G'
    /\ _generate_scatter_trace G' (size_method a) (color_method a)
         (colorscale a) (colorbar_title a) (node_text a) (show_edgetext a)
       = Ok (nt, et, mt)
    /\ _generate_figure G' nt et mt (title a) (titlefont_size a)
         (showlegend a) (annotation_text a) = Ok fig.
Proof.
  unfold plot. intros Hrun. do 2 bind_inv Hrun.
  destruct r0 as [[nt et] mt]. exists r, nt, et, mt. auto.
Qed.

(** [plot] returns a figure as soon as the layout step and the trace
    builder return and the charting library accepts the layout. *)
Lemma plot_total (G G' : Graph coord) a rnd r :
  plot_layout_step G (layout a) rnd = Ok G' ->
  _generate_scatter_trace G' (size_method a) (color_method a)
    (colorscale a) (colorbar_title a) (node_text a) (show_edgetext a) = Ok r ->
  (forall anns,
     layout_ok (title a) (titlefont_size a) (showlegend a) anns = true) ->
  exists fig, plot G a rnd = Ok fig.
Proof.
  intros Hl Hs Hlayout. unfold plot. rewrite Hl. cbn. rewrite Hs. cbn.
  apply is_Ok_true, generate_figure_total; [|done].
  intros e He. eapply scatter_trace_edges; eauto.
Qed.

End FigureFacts.

(** ** Missing attributes *)

Section MissingAttributes.
Context {coord : Type} `{Libraries coord}.

Lemma G_node_attr_missing (G : Graph coord) n k :
  n ∈ G_nodes G -> has_attr G n k = false ->
  G_node_attr G n k = Raise (KeyError k).
Proof.
  intros Hn. unfold has_attr, G_node_attr.
  destruct (G_node_member G n Hn) as [d ->]. cbn. unfold getitem.
  by destruct (d !! k).
Qed.

Lemma node_hover_loop (G : Graph coord) ntext n :
  node_hover G ntext n
  = for_each (text_body G n) ntext
      ("Node: " +:+ n +:+ "<br>Degree: " +:+ str_int (G_degree G n)).
Proof. unfold node_hover. by destruct ntext. Qed.

Lemma text_loop_cases (G : Graph coord) n ntext text :
  n ∈ G_nodes G ->
  is_Ok (for_each (text_body G n) ntext text) = true
  \/ exists p, p ∈ ntext /\ has_attr G n p = false
               /\ for_each (text_body G n) ntext text = Raise (KeyError p).
Proof.
  intros Hn. revert text. induction ntext as [|p ntext IH]; intros text.
  - by left.
  - cbn [for_each].
    assert (text_body G n text p
            = G_node_attr G n p ≫= fun v =>
                Ok (text +:+ "<br></br>" +:+ p +:+ ": " +:+ py_str v)) as ->
      by reflexivity.
    destruct (has_attr G n p) eqn:Hp.
    + apply is_Ok_true in Hp as [v ->]. cbn [mbind Result_bind].
      destruct (IH (text +:+ "<br></br>" +:+ p +:+ ": " +:+ py_str v))
        as [?|(q & Hq & Hmiss & Hrun)]; [by left|].
      right. exists q. split; [by right|]. done.
    + right. exists p. split; [left|]. split; [done|].
      by rewrite G_node_attr_missing.
Qed.

Lemma node_hover_cases (G : Graph coord) ntext n :
  n ∈ G_nodes G ->
  is_Ok (node_hover G ntext n) = true
  \/ exists p, p ∈ ntext /\ has_attr G n p = false
               /\ node_hover G ntext n = Raise (KeyError p).
Proof. rewrite node_hover_loop. apply text_loop_cases. Qed.

Lemma node_hover_fails (G : Graph coord) ntext n p :
  p ∈ ntext -> has_attr G n p = false -> is_Ok (node_hover G ntext n) = false.
Proof.
  intros Hp Hmiss. rewrite node_hover_loop.
  destruct (for_each _ _ _) as [text|] eqn:E; [|reflexivity].
  destruct (for_each_Ok_elem _ _ _ _ p E Hp) as [t Ht].
  unfold text_body in Ht. unfold has_attr in Hmiss.
  destruct (G_node_attr G n p); discriminate.
Qed.

(** The coloring never looks up a missing key: on a node of the graph
    it hands the next sequence of colors to the charting library. *)
Lemma color_entry_next (G : Graph coord) cm n color :
  n ∈ G_nodes G ->
  color_entry G cm n color
  = validated marker_color_ok (next_colors G cm n color).
Proof.
  intros Hn. unfold color_entry, next_colors, color_of, color_value.
  destruct cm as [c|l]; [|reflexivity].
  destruct (decide (c = "degree")); [reflexivity|].
  destruct (G_node_member G n Hn) as [d Hd]. rewrite Hd.
  unfold G_node in Hd.
  destruct (od_get n (g_nodes G)) as [d'|]; [|discriminate].
  injection Hd as ->. cbn. by destruct (d !! c).
Qed.

(** The sizing by an attribute that the node lacks raises the missing
    key, before anything is handed to the charting library. *)
Lemma size_entry_missing (G : Graph coord) s n size :
  n ∈ G_nodes G -> s <> "degree" -> s <> "static" ->
  has_attr G n s = false ->
  size_entry G (MStr s) n size = Raise (KeyError s).
Proof.
  intros Hn Hd Hs Hmiss. unfold size_entry.
  rewrite !decide_False by done. by rewrite G_node_attr_missing.
Qed.

Lemma node_body_fails_text (G : Graph coord) sm cm ntext nt n p :
  p ∈ ntext -> has_attr G n p = false ->
  is_Ok (node_body G sm cm ntext nt n) = false.
Proof.
  intros Hp Hmiss. unfold node_body.
  destruct (node_xy G n); [|reflexivity]. cbn.
  pose proof (node_hover_fails G ntext n p Hp Hmiss) as Ht.
  by destruct (node_hover G ntext n).
Qed.

Lemma node_body_fails_size (G : Graph coord) s cm ntext nt n :
  s <> "degree" -> s <> "static" -> has_attr G n s = false ->
  is_Ok (node_body G (MStr s) cm ntext nt n) = false.
Proof.
  intros Hd Hs Hmiss. unfold node_body.
  destruct (node_xy G n); [|reflexivity]. cbn.
  destruct (node_hover G ntext n); [|reflexivity]. cbn.
  unfold size_entry. rewrite !decide_False by done.
  unfold has_attr in Hmiss. by destruct (G_node_attr G n s).
Qed.

Lemma positioned_nodes (G : Graph coord) n :
  positioned G = true -> n ∈ G_nodes G -> is_Ok (node_xy G n) = true.
Proof.
  unfold positioned. rewrite andb_true_iff, forallb_elem_of. intros [Hn _].
  apply Hn.
Qed.

Lemma edge_loop_total (G : Graph coord) se st :
  positioned G = true ->
  is_Ok (for_each (edge_body G se) (g_edges G) st) = true.
Proof.
  unfold positioned. rewrite andb_true_iff, !forallb_elem_of. intros [_ He].
  apply for_each_total. intros e s1 Hin. specialize (He e Hin).
  apply andb_true_iff in He as [H0 H1]. unfold edge_body.
  apply is_Ok_true in H0 as [xy0 ->]. apply is_Ok_true in H1 as [xy1 ->].
  cbn. by destruct se.
Qed.

End MissingAttributes.

(** ** [plot] as a whole *)

Section PlotFacts.
Context {coord : Type} `{Libraries coord}.

Lemma plot_after_layout (G G' : Graph coord) a rnd :
  plot_layout_step G (layout a) rnd = Ok G' ->
  plot G a rnd
  = _generate_scatter_trace G' (size_method a) (color_method a)
      (colorscale a) (colorbar_title a) (node_text a) (show_edgetext a)
    ≫= fun traces =>
      _generate_figure G' (fst (fst traces)) (snd (fst traces)) (snd traces)
        (title a) (titlefont_size a) (showlegend a) (annotation_text a).
Proof. intros Hl. unfold plot. by rewrite Hl. Qed.

(** The trace builder raises when the body of the node loop raises on
    some node whatever the trace built so far. *)
Lemma scatter_trace_fails (G : Graph coord) sm cm cs cbt ntext se n :
  n ∈ G_nodes G ->
  (forall nt, is_Ok (node_body G sm cm ntext nt n) = false) ->
  is_Ok (_generate_scatter_trace G sm cm cs cbt ntext se) = false.
Proof.
  intros Hn Hfail. unfold _generate_scatter_trace.
  destruct (scatter_ok cs cbt); [|reflexivity]. unfold scatter_loops.
  destruct (for_each (edge_body G se) _ _); [|reflexivity]. cbn.
  destruct (for_each (node_body _ _ _ _) _ _) as [nt|] eqn:E; [|reflexivity].
  destruct (for_each_Ok_elem _ _ _ _ n E Hn) as [nt1 Hok].
  by rewrite Hfail in Hok.
Qed.

Lemma plot_fails (G G' : Graph coord) a rnd :
  plot_layout_step G (layout a) rnd = Ok G' ->
  is_Ok (_generate_scatter_trace G' (size_method a) (color_method a)
           (colorscale a) (colorbar_title a) (node_text a) (show_edgetext a))
  = false ->
  is_Ok (plot G a rnd) = false.
Proof.
  intros Hl Hs. rewrite (plot_after_layout _ _ _ _ Hl).
  by destruct (_generate_scatter_trace _ _ _ _ _ _ _).
Qed.

Lemma plot_raises (G G' : Graph coord) a rnd e :
  plot_layout_step G (layout a) rnd = Ok G' ->
  _generate_scatter_trace G' (size_method a) (color_method a)
    (colorscale a) (colorbar_title a) (node_text a) (show_edgetext a)
  = Raise e ->
  plot G a rnd = Raise e.
Proof. intros Hl Hs. by rewrite (plot_after_layout _ _ _ _ Hl), Hs. Qed.

Lemma has_attrs_node (G : Graph coord) ntext n p :
  has_attrs G ntext = true -> n ∈ G_nodes G -> p ∈ ntext ->
  has_attr G n p = true.
Proof.
  unfold has_attrs. rewrite forallb_elem_of. intros Hall Hn Hp.
  specialize (Hall n Hn). rewrite forallb_elem_of in Hall. auto.
Qed.

(** The hover text of a node that lacks [p] and has the attributes
    requested before [p]. *)
Lemma node_hover_raises (G : Graph coord) ps p qs n :
  n ∈ G_nodes G -> (forall q, q ∈ ps -> has_attr G n q = true) ->
  has_attr G n p = false ->
  node_hover G (ps ++ p :: qs) n = Raise (KeyError p).
Proof.
  intros Hn Hps Hp. rewrite node_hover_loop.
  destruct (text_loop_cases G n ps
              ("Node: " +:+ n +:+ "<br>Degree: " +:+ str_int (G_degree G n)) Hn)
    as [Hok|(q & Hq & Hmq & _)].
  - apply is_Ok_true in Hok as [text Hok].
    apply (for_each_raise_at _ _ _ _ _ _ _ Hok).
    unfold text_body. by rewrite G_node_attr_missing.
  - by rewrite Hps in Hmq.
Qed.

(** The trace builder raises what the body of the node loop raises at
    the node it gets to. *)
Lemma scatter_trace_raise_at (G : Graph coord) sm cm cs cbt ntext se
    pre n post e :
  G_nodes G = pre ++ n :: post ->
  scatter_reaches G sm cm cs cbt ntext se pre = true ->
  (forall nt, node_body G sm cm ntext nt n = Raise e) ->
  _generate_scatter_trace G sm cm cs cbt ntext se = Raise e.
Proof.
  intros Hnodes Hreach Hn. unfold scatter_reaches in Hreach.
  apply andb_true_iff in Hreach as [Hreach Hpre].
  apply andb_true_iff in Hreach as [Hok Hedges].
  apply is_Ok_true in Hedges as [st Hst]. apply is_Ok_true in Hpre as [nt Hnt].
  unfold _generate_scatter_trace. rewrite Hok. unfold scatter_loops.
  rewrite Hst. cbn. rewrite Hnodes.
  by rewrite (for_each_raise_at _ _ _ _ _ _ _ Hnt (Hn nt)).
Qed.

Lemma size_entry_value (G : Graph coord) s n size :
  size_entry G (MStr s) n size
  = size_value G s n ≫= fun v => validated marker_size_ok (size ++ [v]).
Proof.
  unfold size_entry, size_value.
  destruct (decide (s = "degree")); [reflexivity|].
  by destruct (decide (s = "static")).
Qed.

Lemma forallb_snoc {A : Type} (f : A -> bool) l x :
  forallb f l = true -> f x = true -> forallb f (l ++ [x]) = true.
Proof. intros Hl Hx. rewrite forallb_app, Hl. cbn. by rewrite Hx. Qed.

Lemma size_entry_accepted (G : Graph coord) sm n size :
  n ∈ G_nodes G -> sizes_accepted G sm = true ->
  forallb marker_size_ok size = true ->
  is_Ok (size_entry G sm n size) = true.
Proof.
  intros Hn Hacc Hsize. destruct sm as [s|l].
  - rewrite size_entry_value. cbn in Hacc. rewrite forallb_elem_of in Hacc.
    specialize (Hacc n Hn). destruct (size_value G s n) as [v|]; [|done].
    cbn. by rewrite validated_accepted by (by apply forallb_snoc).
  - cbn in *. destruct (G_nodes G); [by apply elem_of_nil in Hn|].
    by rewrite validated_accepted.
Qed.

Lemma color_entry_accepted (G : Graph coord) cm n color :
  n ∈ G_nodes G -> colors_accepted G cm = true ->
  forallb marker_color_ok color = true ->
  is_Ok (color_entry G cm n color) = true.
Proof.
  intros Hn Hacc Hcolor. rewrite color_entry_next by done.
  destruct cm as [c|l]; cbn in *.
  - rewrite forallb_elem_of in Hacc.
    by rewrite validated_accepted by (apply forallb_snoc; auto).
  - destruct (G_nodes G); [by apply elem_of_nil in Hn|].
    by rewrite validated_accepted.
Qed.

(** The body of the node loop returns on a node that has a position and
    the attributes of the hover text, when the charting library accepts
    the sizes and the colors. *)
Lemma node_body_accepted (G : Graph coord) sm cm ntext nt n :
  n ∈ G_nodes G -> is_Ok (node_xy G n) = true ->
  (forall q, q ∈ ntext -> has_attr G n q = true) ->
  sizes_accepted G sm = true -> colors_accepted G cm = true ->
  markers_valid nt ->
  exists nt', node_body G sm cm ntext nt n = Ok nt' /\ markers_valid nt'.
Proof.
  intros Hn Hxy Hattrs Hsizes Hcolors [Hvs Hvc]. unfold node_body.
  apply is_Ok_true in Hxy as [xy ->]. cbn.
  destruct (node_hover_cases G ntext n Hn) as [Ht|(p & Hp & Hmiss & _)];
    [|by rewrite Hattrs in Hmiss].
  apply is_Ok_true in Ht as [text ->]. cbn.
  pose proof (size_entry_accepted G sm n (nt_size nt) Hn Hsizes Hvs) as Hs.
  apply is_Ok_true in Hs as [size Hs]. rewrite Hs. cbn.
  pose proof (color_entry_accepted G cm n (nt_color nt) Hn Hcolors Hvc) as Hc.
  apply is_Ok_true in Hc as [color Hc]. rewrite Hc. cbn.
  eexists. split; [reflexivity|]. split; cbn.
  - by apply size_entry_valid in Hs.
  - by apply color_entry_valid in Hc.
Qed.

Lemma node_body_raises_size (G : Graph coord) s cm ntext nt n :
  n ∈ G_nodes G -> s <> "degree" -> s <> "static" ->
  has_attr G n s = false ->
  is_Ok (node_xy G n) = true -> is_Ok (node_hover G ntext n) = true ->
  node_body G (MStr s) cm ntext nt n = Raise (KeyError s).
Proof.
  intros Hn Hd Hs Hmiss Hxy Ht. unfold node_body.
  rewrite size_entry_missing by done.
  apply is_Ok_true in Hxy as [xy ->]. by apply is_Ok_true in Ht as [text ->].
Qed.

Lemma node_body_raises_text (G : Graph coord) sm cm ntext nt n e :
  is_Ok (node_xy G n) = true -> node_hover G ntext n = Raise e ->
  node_body G sm cm ntext nt n = Raise e.
Proof.
  intros Hxy Ht. unfold node_body. apply is_Ok_true in Hxy as [xy ->].
  cbn. by rewrite Ht.
Qed.

(** What the body of the node loop returns has been accepted. *)
Lemma node_body_valid (G : Graph coord) sm cm ntext nt n nt' :
  node_body G sm cm ntext nt n = Ok nt' -> markers_valid nt'.
Proof.
  unfold node_body. intros Hrun. do 4 bind_inv Hrun. injection Hrun as <-.
  split; cbn; [by eapply size_entry_valid | by eapply color_entry_valid].
Qed.

Lemma scatter_trace_valid (G : Graph coord) sm cm cs cbt ntext se nt et mt :
  _generate_scatter_trace G sm cm cs cbt ntext se = Ok (nt, et, mt) ->
  markers_valid nt.
Proof.
  intros Hrun. apply scatter_trace_Ok_inv in Hrun as [_ Hrun].
  unfold scatter_loops in Hrun. do 2 bind_inv Hrun. injection Hrun as <- _ _.
  revert E0. apply (for_each_invariant _ (fun _ => markers_valid)).
  - by split.
  - intros seen n s1 s2 _. apply node_body_valid.
Qed.

(** The trace builder returns on a positioned graph whose nodes have the
    attributes of the hover text, when the charting library accepts the
    settings of the traces, the sizes and the colors. *)
Lemma scatter_trace_total (G : Graph coord) sm cm cs cbt ntext se :
  scatter_ok cs cbt = true -> positioned G = true ->
  has_attrs G ntext = true ->
  sizes_accepted G sm = true -> colors_accepted G cm = true ->
  is_Ok (_generate_scatter_trace G sm cm cs cbt ntext se) = true.
Proof.
  intros Hok Hpos Hattrs Hsizes Hcolors.
  unfold _generate_scatter_trace. rewrite Hok. unfold scatter_loops.
  pose proof (edge_loop_total G se edge_loop_init Hpos) as He.
  apply is_Ok_true in He as [st ->]. cbn.
  destruct (for_each_total_with (node_body G sm cm ntext) markers_valid
              (G_nodes G) (node_trace_init cs cbt)) as (nt & -> & _);
    [by split| |reflexivity].
  intros n nt Hn Hv. apply node_body_accepted; auto.
  - by apply positioned_nodes.
  - intros q Hq. by apply (has_attrs_node G ntext).
Qed.

(** The layout step changes no attribute other than ["pos"]. *)
Lemma od_get_fmap {V : Type} (f : Node * V -> Node * V) (l : list (Node * V)) n :
  (forall nd, fst (f nd) = fst nd) ->
  od_get n (f <$> l) = (fun d => snd (f (n, d))) <$> od_get n l.
Proof.
  intros Hf. induction l as [|[k v] l IH]; [reflexivity|].
  cbn. specialize (Hf (k, v)) as Hk. destruct (f (k, v)) as [k' v'] eqn:E.
  cbn in Hk. subst k'. destruct (decide (n = k)) as [->|]; [|done].
  cbn. by rewrite E.
Qed.

Lemma apply_layout_attr (G G' : Graph coord) name rnd n k :
  _apply_layout G name rnd = Ok G' -> k <> "pos" ->
  G_node_attr G' n k = G_node_attr G n k.
Proof.
  unfold _apply_layout.
  destruct (od_get name layout_functions) as [f|]; [|discriminate].
  intros Hrun Hk. bind_inv Hrun. rename r into pos_dict.
  injection Hrun as <-.
  unfold G_node_attr, G_node. cbn. rewrite od_get_fmap.
  - destruct (od_get n (g_nodes G)) as [d|]; [|reflexivity]. cbn.
    destruct (pos_values pos_dict !! n); [|reflexivity]. cbn. unfold getitem.
    by rewrite lookup_insert_ne.
  - intros [m d]. cbn. by destruct (pos_values pos_dict !! m).
Qed.

Lemma layout_step_attr (G G' : Graph coord) layout rnd n k :
  plot_layout_step G layout rnd = Ok G' -> k <> "pos" ->
  G_node_attr G' n k = G_node_attr G n k.
Proof.
  unfold plot_layout_step. intros Hrun Hk. destruct (layout_given layout).
  - eapply apply_layout_attr; eauto.
  - destruct (get_node_attributes G "pos").
    + eapply apply_layout_attr; eauto.
    + by injection Hrun as <-.
Qed.

(** Two runs of [_apply_layout] agree when the layout algorithm returns the
    same dictionary in both (whether it does is up to the graph library). *)
Lemma apply_layout_same_positions (G : Graph coord) name f rnd1 rnd2 :
  od_get name layout_functions = Some f -> f G rnd1 = f G rnd2 ->
  _apply_layout G name rnd1 = _apply_layout G name rnd2.
Proof. intros Hf Heq. unfold _apply_layout. by rewrite Hf, Heq. Qed.

End PlotFacts.

(** ** Pairs with and without orientation *)

Lemma nub_fmap_inj {A B : Type} `{EqDecision A} `{EqDecision B}
    (f : A -> B) (l : list A) :
  (forall x y, x ∈ l -> y ∈ l -> f x = f y -> x = y) ->
  nub (f <$> l) = f <$> nub l.
Proof.
  induction l as [|x l IH] using rev_ind; intros Hinj; [reflexivity|].
  rewrite fmap_app. cbn [fmap list_fmap]. rewrite !nub_snoc.
  assert (nub (f <$> l) = f <$> nub l) as ->.
  { apply IH. intros a b Ha Hb. apply Hinj; apply elem_of_app; by left. }
  destruct (decide (x ∈ l)) as [Hin|Hnin].
  - rewrite decide_True by (by apply list_elem_of_fmap_2). reflexivity.
  - rewrite decide_False; [by rewrite fmap_app|].
    intros (y & Hxy & Hy)%list_elem_of_fmap. apply Hnin.
    rewrite (Hinj x y); [done| | |done].
    + apply elem_of_app. right. left.
    + apply elem_of_app. by left.
Qed.

Lemma unordered_eq (p q : Node * Node) :
  unordered p = unordered q -> p = q \/ (fst p = snd q /\ snd p = fst q).
Proof.
  destruct p as [a b], q as [c d]. unfold unordered. cbn. intros Heq.
  assert (forall x : Node, x = a \/ x = b <-> x = c \/ x = d) as Hiff.
  { intros x.
    assert (x ∈ ({[a; b]} : gset Node) <-> x ∈ ({[c; d]} : gset Node)) as Hx
      by (by rewrite Heq).
    by rewrite !elem_of_union, !elem_of_singleton in Hx. }
  pose proof (proj1 (Hiff a) (or_introl eq_refl)) as Ha.
  pose proof (proj1 (Hiff b) (or_intror eq_refl)) as Hb.
  pose proof (proj2 (Hiff c) (or_introl eq_refl)) as Hc.
  pose proof (proj2 (Hiff d) (or_intror eq_refl)) as Hd.
  destruct Ha, Hb, Hc, Hd; subst; auto.
Qed.

(** When no pair is reported in both orientations, the pairs are as many
    as the unordered pairs. *)
Lemma one_way_pairs {coord : Type} `{Libraries coord} (G : Graph coord) :
  one_way G -> length (distinct_pairs G) = length (distinct_unordered_pairs G).
Proof.
  intros Hone. unfold distinct_pairs, distinct_unordered_pairs.
  replace ((fun e => unordered (edge_pair e)) <$> g_edges G)
    with (unordered <$> (edge_pair <$> g_edges G))
    by (by rewrite <- list_fmap_compose).
  rewrite (nub_fmap_inj unordered); [by rewrite length_fmap|].
  intros p q (e1 & -> & He1)%list_elem_of_fmap (e2 & -> & He2)%list_elem_of_fmap
    Heq.
  apply unordered_eq in Heq as [?|[Hst Hts]]; [done|]. cbn in Hst, Hts.
  pose proof (Hone e1 e2 He1 He2 Hst Hts) as Hloop.
  unfold edge_pair. f_equal; congruence.
Qed.

Lemma Forall2_Ok_fmap {A B : Type} (f : A -> B) (l : list A) (l' : list B) :
  Forall2 (fun a b => @Ok B (f a) = Ok b) l l' -> l' = f <$> l.
Proof.
  induction 1 as [|a b l l' Hab _ IH]; [reflexivity|].
  cbn. injection Hab as <-. by rewrite IH.
Qed.

(** * The claims of the specification *)

Section Claims.
Context {coord : Type} `{Libraries coord}.

(** C6.  When [plot] returns a figure: with [size_method="degree"] the
    marker size of every node is its degree plus 12, and with
    [size_method="static"] the marker size of every node is 12. *)
Theorem sizes_by_keyword (G : Graph coord) (a : PlotArgs coord) rnd fig :
  plot G a rnd = Ok fig ->
  (size_method a = MStr "degree" ->
   nt_size (fig_node_trace fig)
   = (fun n => VInt (G_degree G n + 12)) <$> G_nodes G)
  /\ (size_method a = MStr "static" ->
      nt_size (fig_node_trace fig) = (fun _ => VInt 12) <$> G_nodes G).
Proof.
  intros Hplot.
  apply plot_Ok_inv in Hplot as (G' & nt & et & mt & Hl & Hs & Hf).
  apply layout_step_frame in Hl as (Hnodes & Hedges & _).
  apply generate_figure_spec in Hf as (-> & _).
  apply scatter_trace_spec in Hs as ((_ & _ & _ & _ & Hsize & _) & _).
  split; intros Hm; rewrite Hm in Hsize; rewrite <- Hnodes.
  - apply Forall2_Ok_fmap.
    eapply Forall2_impl; [exact Hsize|]. intros n v. cbn.
    unfold size_value. rewrite decide_True by done.
    by rewrite (G_degree_edges G G').
  - apply (Forall2_Ok_fmap (fun _ => VInt 12)).
    eapply Forall2_impl; [exact Hsize|]. intros n v. cbn.
    unfold size_value. rewrite decide_False, decide_True by done. done.
Qed.

(** C7.  When no layout name is given and some node of the graph carries a
    position, the layout step returns the graph unchanged; running the
    step twice is the same as running it once. *)
Theorem layout_step_skip (G : Graph coord) layout rnd :
  layout_given layout = None ->
  (exists nd, nd ∈ g_nodes G /\ is_Some (snd nd !! "pos")) ->
  plot_layout_step G layout rnd = Ok G
  /\ forall rnd',
       plot_layout_step G layout rnd
       ≫= (fun G1 => plot_layout_step G1 layout rnd')
       = plot_layout_step G layout rnd.
Proof.
  intros Hnone (nd & Hnd & Hpos).
  assert (forall r, plot_layout_step G layout r = Ok G) as Hskip.
  { intros r. unfold plot_layout_step. rewrite Hnone.
    destruct (get_node_attributes G "pos") eqn:E; [|reflexivity].
    rewrite get_node_attributes_nil in E. rewrite (E nd Hnd) in Hpos.
    by destruct Hpos. }
  split; [apply Hskip|]. intros rnd'. rewrite Hskip. cbn. apply Hskip.
Qed.

(** C8.  When [plot] returns a figure, its annotations are the caption
    followed by the arrows.  For a directed graph (a DiGraph or a
    MultiDiGraph) there is one arrow per edge, in the order of the edges,
    from the position of the source node to the position of the target
    node; for an undirected graph (a Graph or a MultiGraph) there is
    none. *)
Theorem arrow_annotations (G : Graph coord) (a : PlotArgs coord) rnd fig :
  plot G a rnd = Ok fig ->
  exists G' arrows,
    plot_layout_step G (layout a) rnd = Ok G'
    /\ fig_annotations fig = Caption (annotation_text a) :: arrows
    /\ (g_class G = NxDiGraph \/ g_class G = NxMultiDiGraph ->
        length arrows = length (g_edges G)
        /\ forall i e, g_edges G !! i = Some e ->
             exists x0 y0 x1 y1,
               G_node_attr G' (e_src e) "pos" = Ok (VPos x0 y0)
               /\ G_node_attr G' (e_tgt e) "pos" = Ok (VPos x1 y1)
               /\ arrows !! i = Some (Arrow x0 y0 x1 y1))
    /\ (g_class G = NxGraph \/ g_class G = NxMultiGraph -> arrows = []).
Proof.
  intros Hplot.
  apply plot_Ok_inv in Hplot as (G' & nt & et & mt & Hl & Hs & Hf).
  apply generate_figure_spec in Hf as (_ & _ & _ & arrows & Hann & Harrows).
  exists G', arrows. split; [done|]. split; [done|].
  apply layout_step_frame in Hl as (_ & Hedges & Hclass).
  rewrite Hedges, Hclass in Harrows. split.
  - intros Hdir.
    assert (is_directed_class (g_class G) = true) as Hd
      by (destruct Hdir as [-> | ->]; reflexivity).
    rewrite Hd in Harrows.
    split; [symmetry; by eapply Forall2_length|].
    intros i e Hi.
    destruct (Forall2_lookup_l _ _ _ _ _ Harrows Hi) as (arrow & Harr & Hof).
    unfold arrow_of, node_xy in Hof.
    destruct (G_node_attr G' (e_src e) "pos") as [[| |x0 y0]|];
      try discriminate.
    cbn in Hof.
    destruct (G_node_attr G' (e_tgt e) "pos") as [[| |x1 y1]|];
      try discriminate.
    cbn in Hof. injection Hof as <-. exists x0, y0, x1, y1. auto.
  - intros Hund.
    assert (is_directed_class (g_class G) = false) as Hd
      by (destruct Hund as [-> | ->]; reflexivity).
    by rewrite Hd in Harrows.
Qed.


(** C1 (corrected).  When [plot] returns a figure for a graph with N
    nodes and E edges: [x], [y] and [text] of the node trace have length
    N; the marker sizes have length N when [size_method] is a string, and
    are the given list as it is (whatever its length) when it is a list
    and the graph has a node; likewise for the marker colors; [x] and [y]
    of the edge trace have length 3E; and with edge hover text the three
    sequences of the hover trace have the length of the list of distinct
    (source, target) pairs of the edges, which are as many as the
    unordered pairs when no two nodes are reported in both orientations. *)
Theorem trace_lengths (G : Graph coord) (a : PlotArgs coord) rnd fig :
  plot G a rnd = Ok fig ->
  length (nt_x (fig_node_trace fig)) = length (g_nodes G)
  /\ length (nt_y (fig_node_trace fig)) = length (g_nodes G)
  /\ length (nt_text (fig_node_trace fig)) = length (g_nodes G)
  /\ match size_method a with
     | MStr _ => length (nt_size (fig_node_trace fig)) = length (g_nodes G)
     | MList l => nt_size (fig_node_trace fig) = verbatim l (G_nodes G)
     end
  /\ match color_method a with
     | MStr _ => length (nt_color (fig_node_trace fig)) = length (g_nodes G)
     | MList l => nt_color (fig_node_trace fig) = verbatim l (G_nodes G)
     end
  /\ length (et_x (fig_edge_trace fig)) = 3 * length (g_edges G)
  /\ length (et_y (fig_edge_trace fig)) = 3 * length (g_edges G)
  /\ (show_edgetext a = true ->
      length (mt_x (fig_middle_node_trace fig)) = length (distinct_pairs G)
      /\ length (mt_y (fig_middle_node_trace fig)) = length (distinct_pairs G)
      /\ length (mt_text (fig_middle_node_trace fig))
         = length (distinct_pairs G))
  /\ length (distinct_pairs G)
     = size (list_to_set (edge_pair <$> g_edges G) : gset (Node * Node))
  /\ (one_way G ->
      length (distinct_pairs G) = length (distinct_unordered_pairs G)).
Proof.
  intros Hplot.
  apply plot_Ok_inv in Hplot as (G' & nt & et & mt & Hl & Hs & Hf).
  apply layout_step_frame in Hl as (Hnodes & Hedges & _).
  apply generate_figure_spec in Hf as (-> & -> & -> & _).
  apply scatter_trace_spec in Hs
    as ((_ & Hx & Hy & Ht & Hsize & Hcolor & _) & Hex & Hey & Hlen & Hmid).
  assert (distinct_pairs G' = distinct_pairs G) as Hpairs
    by (unfold distinct_pairs; by rewrite Hedges).
  rewrite Hnodes, length_G_nodes in Hx, Hy. rewrite Hedges in Hex, Hey.
  apply Forall2_length in Ht. rewrite Hnodes, length_G_nodes in Ht.
  do 3 (split; [done|]).
  split; [|split; [|split; [done|split; [done|split;
    [|split; [apply length_nub | apply one_way_pairs]]]]]].
  - destruct (size_method a); [|by rewrite <- Hnodes].
    apply Forall2_length in Hsize.
    by rewrite Hnodes, length_G_nodes in Hsize.
  - destruct (color_method a); [|by rewrite <- Hnodes].
    by rewrite Hcolor, length_fmap, Hnodes, length_G_nodes.
  - intros Hse. rewrite Hse in Hmid. destruct Hmid as [Htext Hmid].
    apply Forall2_length in Hmid.
    rewrite length_zip_with, <- Hlen, Nat.min_id, Hpairs in Hmid.
    rewrite <- Hlen, Htext, length_fmap, Hpairs. auto.
Qed.

(** C2 (corrected).  With edge hover text, when [plot] returns a figure:
    the hover trace has one marker per distinct (source, target) pair of
    the edge enumeration, in first-seen order, whatever the number of
    parallel edges of the pair; the marker lies at the midpoint between
    the positions of the two nodes, and its text has one line per
    attribute key of the edges of the pair, listing the values of all of
    them.  When no two nodes are reported as a pair in both orientations,
    as for an undirected graph, this is one marker per unordered pair. *)
Theorem edge_hover_markers (G : Graph coord) (a : PlotArgs coord) rnd fig :
  show_edgetext a = true -> plot G a rnd = Ok fig ->
  exists G',
    plot_layout_step G (layout a) rnd = Ok G'
    /\ length (mt_x (fig_middle_node_trace fig)) = length (distinct_pairs G)
    /\ length (mt_y (fig_middle_node_trace fig)) = length (distinct_pairs G)
    /\ Forall2 (fun p xy => pair_midpoint G' p = Ok xy) (distinct_pairs G)
         (zip (mt_x (fig_middle_node_trace fig))
              (mt_y (fig_middle_node_trace fig)))
    /\ mt_text (fig_middle_node_trace fig)
       = (fun p => edge_text (aggregate p (g_edges G))) <$> distinct_pairs G
    /\ (one_way G ->
        length (mt_x (fig_middle_node_trace fig))
        = length (distinct_unordered_pairs G)).
Proof.
  intros Hse Hplot.
  apply plot_Ok_inv in Hplot as (G' & nt & et & mt & Hl & Hs & Hf).
  exists G'. split; [done|].
  apply layout_step_frame in Hl as (Hnodes & Hedges & _).
  apply generate_figure_spec in Hf as (_ & _ & -> & _).
  apply scatter_trace_spec in Hs as (_ & _ & _ & Hlen & Hmid).
  rewrite Hse in Hmid. destruct Hmid as [Htext Hmid].
  assert (distinct_pairs G' = distinct_pairs G) as Hpairs
    by (unfold distinct_pairs; by rewrite Hedges).
  rewrite Hpairs, Hedges in *.
  pose proof (Forall2_length _ _ _ Hmid) as Hl2.
  rewrite length_zip_with, <- Hlen, Nat.min_id in Hl2.
  repeat split; try done; try congruence.
  intros Hone. rewrite <- Hl2. by apply one_way_pairs.
Qed.

(** C3 (corrected).  When the layout step returns, and a layout name was
    given, or no node carried a position, or every node carried one, then
    the graph has the same nodes and every node carries a 2D position. *)
Theorem layout_step_positions (G G' : Graph coord) layout rnd :
  plot_layout_step G layout rnd = Ok G' ->
  is_Some (layout_given layout)
  \/ (forall nd, nd ∈ g_nodes G -> snd nd !! "pos" = None)
  \/ every_node_positioned G = true ->
  G_nodes G' = G_nodes G /\ every_node_positioned G' = true.
Proof.
  intros Hrun Hcases.
  split; [apply layout_step_frame in Hrun; tauto|].
  unfold plot_layout_step in Hrun.
  destruct (layout_given layout) as [name|].
  - apply apply_layout_spec in Hrun. tauto.
  - destruct (get_node_attributes G "pos") eqn:E.
    + apply apply_layout_spec in Hrun. tauto.
    + injection Hrun as <-.
      destruct Hcases as [[? [=]]|[Hnone|Hall]]; [|done].
      apply get_node_attributes_nil in Hnone. congruence.
Qed.

(** C4 (corrected).  Let [n] be a node that lacks an attribute after the
    layout step.  When [size_method] names that attribute, [plot] fails;
    the error is the missing key when the trace builder gets to [n] and
    reads its position and builds its hover text.  When [color_method]
    names it, no key is looked up: the name itself is appended to the
    marker colors that are handed to the charting library, so when [plot]
    returns the color entry of [n] is the name and the library has
    accepted it, and [plot] fails when the library rejects it. *)
Theorem missing_attribute_policies (G G' : Graph coord) (a : PlotArgs coord)
    rnd n :
  plot_layout_step G (layout a) rnd = Ok G' -> n ∈ G_nodes G' ->
  (forall s, size_method a = MStr s -> s <> "degree" -> s <> "static" ->
     has_attr G' n s = false ->
     is_Ok (plot G a rnd) = false
     /\ (forall pre post, G_nodes G' = pre ++ n :: post ->
           scatter_reaches G' (size_method a) (color_method a) (colorscale a)
             (colorbar_title a) (node_text a) (show_edgetext a) pre = true ->
           is_Ok (node_xy G' n) = true ->
           is_Ok (node_hover G' (node_text a) n) = true ->
           plot G a rnd = Raise (KeyError s)))
  /\ (forall c, color_method a = MStr c -> c <> "degree" ->
        has_attr G' n c = false ->
        color_value G' c n = VStr c
        /\ (forall color,
              color_entry G' (color_method a) n color
              = validated marker_color_ok (color ++ [VStr c]))
        /\ (forall fig, plot G a rnd = Ok fig ->
              nt_color (fig_node_trace fig) = color_value G' c <$> G_nodes G'
              /\ marker_color_ok (VStr c) = true)
        /\ (marker_color_ok (VStr c) = false ->
            is_Ok (plot G a rnd) = false)).
Proof.
  intros Hl Hn. split.
  - intros s Hsm Hd Hs Hmiss. split.
    + apply (plot_fails G G'); [done|]. rewrite Hsm.
      apply (scatter_trace_fails _ _ _ _ _ _ _ n); [done|].
      intros nt. by apply node_body_fails_size.
    + intros pre post Hnodes Hreach Hxy Ht. apply (plot_raises G G'); [done|].
      apply (scatter_trace_raise_at _ _ _ _ _ _ _ pre n post); [done|done|].
      intros nt. rewrite Hsm. by apply node_body_raises_size.
  - intros c Hcm Hc Hmiss.
    assert (color_value G' c n = VStr c) as Hval.
    { unfold has_attr, G_node_attr in Hmiss. unfold color_value.
      destruct (G_node_member G' n Hn) as [d Hd]. rewrite Hd in Hmiss.
      unfold G_node in Hd.
      destruct (od_get n (g_nodes G')) as [d'|]; [|discriminate].
      injection Hd as ->. cbn in *. unfold getitem in Hmiss.
      by destruct (d !! c). }
    assert (forall fig, plot G a rnd = Ok fig ->
              nt_color (fig_node_trace fig) = color_value G' c <$> G_nodes G'
              /\ marker_color_ok (VStr c) = true) as Hret.
    { intros fig Hplot.
      apply plot_Ok_inv in Hplot as (G1 & nt & et & mt & Hl1 & Hs & Hf).
      rewrite Hl in Hl1. injection Hl1 as <-.
      apply generate_figure_spec in Hf as (-> & _).
      pose proof (scatter_trace_valid _ _ _ _ _ _ _ _ _ _ Hs) as [_ Hvc].
      apply scatter_trace_spec in Hs as ((_ & _ & _ & _ & _ & Hcolor & _) & _).
      rewrite Hcm in Hcolor.
      assert (nt_color nt = color_value G' c <$> G_nodes G') as Hcol.
      { rewrite Hcolor. apply list_fmap_ext. intros i m _.
        unfold color_of. by rewrite decide_False. }
      split; [done|]. rewrite forallb_elem_of in Hvc. rewrite <- Hval.
      apply Hvc. rewrite Hcol. by apply list_elem_of_fmap_2. }
    split; [done|]. split; [|split; [exact Hret|]].
    + intros color. rewrite Hcm, color_entry_next by done. cbn.
      unfold color_of. rewrite decide_False by done. by rewrite Hval.
    + intros Hrej. destruct (plot G a rnd) as [fig|] eqn:E; [|done].
      destruct (Hret fig eq_refl) as [_ Hok]. congruence.
Qed.

(** C10 (corrected).  Let [n] be a node that lacks an attribute [p] of
    [node_text] after the layout step.  Then [plot] fails.  When the trace
    builder gets to [n] and reads its position, and [n] has the attributes
    of [node_text] before [p], the error is the missing key [p], raised
    while the hover text of [n] is built. *)
Theorem missing_hover_attribute (G G' : Graph coord) (a : PlotArgs coord) rnd
    pre n post ps p qs :
  plot_layout_step G (layout a) rnd = Ok G' ->
  G_nodes G' = pre ++ n :: post ->
  node_text a = ps ++ p :: qs ->
  has_attr G' n p = false ->
  is_Ok (plot G a rnd) = false
  /\ (scatter_reaches G' (size_method a) (color_method a) (colorscale a)
        (colorbar_title a) (node_text a) (show_edgetext a) pre = true ->
      is_Ok (node_xy G' n) = true ->
      (forall q, q ∈ ps -> has_attr G' n q = true) ->
      node_hover G' (node_text a) n = Raise (KeyError p)
      /\ plot G a rnd = Raise (KeyError p)).
Proof.
  intros Hl Hnodes Htext Hmiss.
  assert (n ∈ G_nodes G') as Hn
    by (rewrite Hnodes; apply elem_of_app; right; left).
  assert (p ∈ node_text a) as Hp
    by (rewrite Htext; apply elem_of_app; right; left).
  split.
  - apply (plot_fails G G'); [done|].
    apply (scatter_trace_fails _ _ _ _ _ _ _ n); [done|].
    intros nt. by apply (node_body_fails_text _ _ _ _ _ _ p).
  - intros Hreach Hxy Hps.
    assert (node_hover G' (node_text a) n = Raise (KeyError p)) as Hhover
      by (rewrite Htext; by apply node_hover_raises).
    split; [done|]. apply (plot_raises G G'); [done|].
    apply (scatter_trace_raise_at _ _ _ _ _ _ _ pre n post); [done|done|].
    intros nt. by apply node_body_raises_text.
Qed.

End Claims.

(** * The claims on concrete graphs *)

(** C6 on the path A - B - C with the default arguments. *)
Lemma sizes_by_keyword_witness :
  plot Demo.path3 default_args 0%Z = Ok Demo.path3_figure
  /\ (size_method (default_args (coord := Z)) = MStr "degree" ->
      nt_size (fig_node_trace Demo.path3_figure)
      = (fun n => VInt (G_degree Demo.path3 n + 12)) <$> G_nodes Demo.path3)
  /\ (size_method (default_args (coord := Z)) = MStr "static" ->
      nt_size (fig_node_trace Demo.path3_figure)
      = (fun _ => VInt 12) <$> G_nodes Demo.path3).
Proof.
  assert (plot Demo.path3 default_args 0%Z = Ok Demo.path3_figure) as Hplot
    by (vm_compute; reflexivity).
  exact (conj Hplot (sizes_by_keyword Demo.path3 default_args 0%Z _ Hplot)).
Defined.

(** The example of the specification: the path A - B - C with the default
    arguments has three node entries, six edge coordinates, the hover text
    of B and the title "Graph". *)
Example path3_example :
  plot Demo.path3 default_args 0%Z = Ok Demo.path3_figure
  /\ length (nt_x (fig_node_trace Demo.path3_figure)) = 3
  /\ length (et_x (fig_edge_trace Demo.path3_figure)) = 6
  /\ nt_text (fig_node_trace Demo.path3_figure) !! 1
     = Some "Node: B<br>Degree: 2"
  /\ fig_title Demo.path3_figure = "Graph".
Proof. vm_compute. repeat split; reflexivity. Qed.

(** C7 on a graph whose nodes carry positions. *)
Lemma layout_step_skip_witness :
  layout_given None = None
  /\ (exists nd, nd ∈ g_nodes Demo.parallel2 /\ is_Some (snd nd !! "pos"))
  /\ plot_layout_step Demo.parallel2 None 0%Z = Ok Demo.parallel2
  /\ forall rnd',
       plot_layout_step Demo.parallel2 None 0%Z
       ≫= (fun G1 => plot_layout_step G1 None rnd')
       = plot_layout_step Demo.parallel2 None 0%Z.
Proof.
  assert (exists nd, nd ∈ g_nodes Demo.parallel2 /\ is_Some (snd nd !! "pos"))
    as Hpos.
  { exists ("a", {["pos" := VPos 0 0]}%Z). split; [left|].
    exists (VPos 0 0)%Z. reflexivity. }
  exact (conj eq_refl
           (conj Hpos (layout_step_skip Demo.parallel2 None 0%Z eq_refl Hpos))).
Defined.

(** C8 on a directed graph with an edge from a to b and an edge from b
    to a: the arrows go from (0, 0) to (4, 2) and back. *)
Lemma arrow_annotations_witness :
  plot Demo.two_way Demo.hover_args 0%Z = Ok Demo.two_way_figure
  /\ g_class Demo.two_way = NxDiGraph
  /\ fig_annotations Demo.two_way_figure
     = [Caption ""; Arrow 0 0 4 2; Arrow 4 2 0 0]%Z
  /\ exists G' arrows,
       plot_layout_step Demo.two_way (layout Demo.hover_args) 0%Z = Ok G'
       /\ fig_annotations Demo.two_way_figure
          = Caption (annotation_text Demo.hover_args) :: arrows
       /\ (g_class Demo.two_way = NxDiGraph
           \/ g_class Demo.two_way = NxMultiDiGraph ->
           length arrows = length (g_edges Demo.two_way)
           /\ forall i e, g_edges Demo.two_way !! i = Some e ->
                exists x0 y0 x1 y1,
                  G_node_attr G' (e_src e) "pos" = Ok (VPos x0 y0)
                  /\ G_node_attr G' (e_tgt e) "pos" = Ok (VPos x1 y1)
                  /\ arrows !! i = Some (Arrow x0 y0 x1 y1))
       /\ (g_class Demo.two_way = NxGraph
           \/ g_class Demo.two_way = NxMultiGraph -> arrows = []).
Proof.
  assert (plot Demo.two_way Demo.hover_args 0%Z = Ok Demo.two_way_figure)
    as Hplot by (vm_compute; reflexivity).
  exact (conj Hplot
           (conj eq_refl
              (conj eq_refl
                 (arrow_annotations Demo.two_way Demo.hover_args 0%Z _
                    Hplot)))).
Defined.

(** The arrows of that figure, and none on the undirected graph with the
    same arguments. *)
Example arrows_example :
  plot Demo.two_way Demo.hover_args 0%Z = Ok Demo.two_way_figure
  /\ fig_annotations Demo.two_way_figure
     = [Caption ""; Arrow 0 0 4 2; Arrow 4 2 0 0]%Z
  /\ plot Demo.parallel2 Demo.hover_args 0%Z = Ok Demo.parallel2_figure
  /\ fig_annotations Demo.parallel2_figure = [Caption ""].
Proof. vm_compute. repeat split; reflexivity. Qed.



(** C1 (corrected) on two nodes joined by two parallel edges, with edge
    hover text. *)
Lemma trace_lengths_witness :
  plot Demo.parallel2 Demo.hover_args 0%Z = Ok Demo.parallel2_figure
  /\ length (nt_x (fig_node_trace Demo.parallel2_figure))
     = length (g_nodes Demo.parallel2)
  /\ length (nt_y (fig_node_trace Demo.parallel2_figure))
     = length (g_nodes Demo.parallel2)
  /\ length (nt_text (fig_node_trace Demo.parallel2_figure))
     = length (g_nodes Demo.parallel2)
  /\ match size_method Demo.hover_args with
     | MStr _ => length (nt_size (fig_node_trace Demo.parallel2_figure))
                 = length (g_nodes Demo.parallel2)
     | MList l => nt_size (fig_node_trace Demo.parallel2_figure)
                  = verbatim l (G_nodes Demo.parallel2)
     end
  /\ match color_method Demo.hover_args with
     | MStr _ => length (nt_color (fig_node_trace Demo.parallel2_figure))
                 = length (g_nodes Demo.parallel2)
     | MList l => nt_color (fig_node_trace Demo.parallel2_figure)
                  = verbatim l (G_nodes Demo.parallel2)
     end
  /\ length (et_x (fig_edge_trace Demo.parallel2_figure))
     = 3 * length (g_edges Demo.parallel2)
  /\ length (et_y (fig_edge_trace Demo.parallel2_figure))
     = 3 * length (g_edges Demo.parallel2)
  /\ (show_edgetext Demo.hover_args = true ->
      length (mt_x (fig_middle_node_trace Demo.parallel2_figure))
      = length (distinct_pairs Demo.parallel2)
      /\ length (mt_y (fig_middle_node_trace Demo.parallel2_figure))
         = length (distinct_pairs Demo.parallel2)
      /\ length (mt_text (fig_middle_node_trace Demo.parallel2_figure))
         = length (distinct_pairs Demo.parallel2))
  /\ length (distinct_pairs Demo.parallel2)
     = size (list_to_set (edge_pair <$> g_edges Demo.parallel2)
               : gset (Node * Node))
  /\ (one_way Demo.parallel2 ->
      length (distinct_pairs Demo.parallel2)
      = length (distinct_unordered_pairs Demo.parallel2)).
Proof.
  assert (plot Demo.parallel2 Demo.hover_args 0%Z = Ok Demo.parallel2_figure)
    as Hplot by (vm_compute; reflexivity).
  exact (conj Hplot
           (trace_lengths Demo.parallel2 Demo.hover_args 0%Z _ Hplot)).
Defined.

(** C1 as stated fails: a list of one size for a graph of two nodes is
    stored as it is.  (And were the node pairs counted without their
    orientation, the hover trace of a directed graph with an edge in each
    direction would have two entries for one pair.) *)
Lemma trace_lengths_counterexample :
  plot Demo.ranked Demo.one_size_args 0%Z = Ok Demo.ranked_one_size_figure
  /\ length (nt_size (fig_node_trace Demo.ranked_one_size_figure)) = 1
  /\ length (g_nodes Demo.ranked) = 2
  /\ plot Demo.two_way Demo.hover_args 0%Z = Ok Demo.two_way_figure
  /\ length (mt_x (fig_middle_node_trace Demo.two_way_figure)) = 2
  /\ length (distinct_unordered_pairs Demo.two_way) = 1.
Proof. vm_compute. repeat split; reflexivity. Qed.

(** C2 (corrected) on two nodes joined by two parallel edges with the
    attributes [weight: 1] and [weight: 2]. *)
Lemma edge_hover_markers_witness :
  show_edgetext Demo.hover_args = true
  /\ plot Demo.parallel2 Demo.hover_args 0%Z = Ok Demo.parallel2_figure
  /\ exists G',
       plot_layout_step Demo.parallel2 (layout Demo.hover_args) 0%Z = Ok G'
       /\ length (mt_x (fig_middle_node_trace Demo.parallel2_figure))
          = length (distinct_pairs Demo.parallel2)
       /\ length (mt_y (fig_middle_node_trace Demo.parallel2_figure))
          = length (distinct_pairs Demo.parallel2)
       /\ Forall2 (fun p xy => pair_midpoint G' p = Ok xy)
            (distinct_pairs Demo.parallel2)
            (zip (mt_x (fig_middle_node_trace Demo.parallel2_figure))
                 (mt_y (fig_middle_node_trace Demo.parallel2_figure)))
       /\ mt_text (fig_middle_node_trace Demo.parallel2_figure)
          = (fun p => edge_text (aggregate p (g_edges Demo.parallel2)))
              <$> distinct_pairs Demo.parallel2
       /\ (one_way Demo.parallel2 ->
           length (mt_x (fig_middle_node_trace Demo.parallel2_figure))
           = length (distinct_unordered_pairs Demo.parallel2)).
Proof.
  assert (plot Demo.parallel2 Demo.hover_args 0%Z = Ok Demo.parallel2_figure)
    as Hplot by (vm_compute; reflexivity).
  exact (conj eq_refl
           (conj Hplot
              (edge_hover_markers Demo.parallel2 Demo.hover_args 0%Z _
                 eq_refl Hplot))).
Defined.

(** The example of the specification: one marker for the two parallel
    edges, and a text listing both weights. *)
Example parallel_edges_example :
  plot Demo.parallel2 Demo.hover_args 0%Z = Ok Demo.parallel2_figure
  /\ distinct_pairs Demo.parallel2 = [("a", "b")]
  /\ aggregate ("a", "b") (g_edges Demo.parallel2)
     = [("weight", [VInt 1; VInt 2])]
  /\ mt_x (fig_middle_node_trace Demo.parallel2_figure) = [2%Z]
  /\ mt_text (fig_middle_node_trace Demo.parallel2_figure)
     = ["weight: [1, 2]"].
Proof. vm_compute. repeat split; reflexivity. Qed.

(** C2 as stated fails: on a directed graph with an edge from a to b and
    an edge from b to a there is one unordered pair, and two markers, each
    with the attributes of one edge only. *)
Lemma edge_hover_markers_counterexample :
  plot Demo.two_way Demo.hover_args 0%Z = Ok Demo.two_way_figure
  /\ length (distinct_unordered_pairs Demo.two_way) = 1
  /\ length (mt_x (fig_middle_node_trace Demo.two_way_figure)) = 2
  /\ mt_text (fig_middle_node_trace Demo.two_way_figure)
     = ["weight: [1]"; "weight: [2]"].
Proof. vm_compute. repeat split; reflexivity. Qed.

(** C3 (corrected) on the path without positions and the layout name
    "circular". *)
Lemma layout_step_positions_witness :
  plot_layout_step Demo.path3 (Some "circular") 0%Z = Ok Demo.path3_circular
  /\ (is_Some (layout_given (Some "circular"))
      \/ (forall nd, nd ∈ g_nodes Demo.path3 -> snd nd !! "pos" = None)
      \/ every_node_positioned Demo.path3 = true)
  /\ G_nodes Demo.path3_circular = G_nodes Demo.path3
  /\ every_node_positioned Demo.path3_circular = true.
Proof.
  assert (plot_layout_step Demo.path3 (Some "circular") 0%Z
          = Ok Demo.path3_circular) as Hl by (vm_compute; reflexivity).
  assert (is_Some (layout_given (Some "circular"))
          \/ (forall nd, nd ∈ g_nodes Demo.path3 -> snd nd !! "pos" = None)
          \/ every_node_positioned Demo.path3 = true) as Hcase
    by (left; eexists; reflexivity).
  exact (conj Hl
           (conj Hcase
              (layout_step_positions Demo.path3 Demo.path3_circular
                 (Some "circular") 0%Z Hl Hcase))).
Defined.

(** C3 as stated fails: with no layout name and a position on one node
    only, the step leaves the other node without a position (and [plot]
    then fails on reading it). *)
Lemma layout_step_positions_counterexample :
  plot_layout_step Demo.half_placed None 0%Z = Ok Demo.half_placed
  /\ every_node_positioned Demo.half_placed = false
  /\ G_node_attr Demo.half_placed "b" "pos" = Raise (KeyError "pos")
  /\ plot Demo.half_placed default_args 0%Z = Raise (KeyError "pos").
Proof. vm_compute. repeat split; reflexivity. Qed.

(** C4 (corrected) on a graph whose node b lacks the attributes [rank],
    [red] and [notacolor]: sizing by [rank] raises the missing key;
    coloring by [red] returns a figure with the string as the color of
    b; coloring by [notacolor] fails, as this instance of the charting
    library rejects the string. *)
Lemma missing_attribute_policies_witness :
  (plot_layout_step Demo.ranked (layout Demo.rank_args) 0%Z = Ok Demo.ranked
   /\ "b" ∈ G_nodes Demo.ranked
   /\ is_Ok (plot Demo.ranked Demo.rank_args 0%Z) = false
   /\ plot Demo.ranked Demo.rank_args 0%Z = Raise (KeyError "rank"))
  /\ (plot Demo.ranked Demo.red_args 0%Z = Ok Demo.ranked_red_figure
      /\ color_value Demo.ranked "red" "b" = VStr "red"
      /\ nt_color (fig_node_trace Demo.ranked_red_figure)
         = color_value Demo.ranked "red" <$> G_nodes Demo.ranked
      /\ marker_color_ok (VStr "red" : Value Z) = true)
  /\ (marker_color_ok (VStr "notacolor" : Value Z) = false
      /\ is_Ok (plot Demo.ranked Demo.notacolor_args 0%Z) = false).
Proof.
  assert (forall a : PlotArgs Z, layout a = None ->
            plot_layout_step Demo.ranked (layout a) 0%Z = Ok Demo.ranked)
    as Hl by (intros a ->; vm_compute; reflexivity).
  assert ("b" ∈ G_nodes Demo.ranked) as Hn by (right; left).
  split; [|split].
  - destruct (missing_attribute_policies (H := Demo.demo_libraries)
                Demo.ranked Demo.ranked Demo.rank_args 0%Z "b"
                (Hl Demo.rank_args eq_refl) Hn) as [Hsize _].
    destruct (Hsize "rank") as [Hfail Hexact];
      [reflexivity|discriminate|discriminate|vm_compute; reflexivity|].
    split; [exact (Hl Demo.rank_args eq_refl)|]. split; [exact Hn|].
    split; [exact Hfail|].
    apply (Hexact ["a"] []); vm_compute; reflexivity.
  - destruct (missing_attribute_policies (H := Demo.demo_libraries)
                Demo.ranked Demo.ranked Demo.red_args 0%Z "b"
                (Hl Demo.red_args eq_refl) Hn) as [_ Hcolor].
    destruct (Hcolor "red") as (Hval & _ & Hret & _);
      [reflexivity|discriminate|vm_compute; reflexivity|].
    assert (plot Demo.ranked Demo.red_args 0%Z = Ok Demo.ranked_red_figure)
      as Hplot by (vm_compute; reflexivity).
    destruct (Hret _ Hplot) as [Hcol Hok]. auto.
  - destruct (missing_attribute_policies (H := Demo.demo_libraries)
                Demo.ranked Demo.ranked Demo.notacolor_args 0%Z "b"
                (Hl Demo.notacolor_args eq_refl) Hn) as [_ Hcolor].
    destruct (Hcolor "notacolor") as (_ & _ & _ & Hrej);
      [reflexivity|discriminate|vm_compute; reflexivity|].
    split; [reflexivity|]. apply Hrej. reflexivity.
Defined.

(** C4 as stated fails for the coloring: node b lacks the attribute [red]
    that [color_method] names, and [plot] returns a figure in which the
    color of b is the string itself. *)
Lemma missing_attribute_policies_counterexample :
  color_method Demo.red_args = MStr "red"
  /\ has_attr Demo.ranked "b" "red" = false
  /\ plot Demo.ranked Demo.red_args 0%Z = Ok Demo.ranked_red_figure
  /\ nt_color (fig_node_trace Demo.ranked_red_figure) = [VInt 1; VStr "red"].
Proof. vm_compute. repeat split; reflexivity. Qed.

(** C10 (corrected) on a graph whose second node lacks the requested
    attribute [rank]. *)
Lemma missing_hover_attribute_witness :
  plot_layout_step Demo.ranked (layout Demo.rank_text_args) 0%Z
  = Ok Demo.ranked
  /\ G_nodes Demo.ranked = ["a"] ++ "b" :: []
  /\ node_text Demo.rank_text_args = [] ++ "rank" :: []
  /\ has_attr Demo.ranked "b" "rank" = false
  /\ is_Ok (plot Demo.ranked Demo.rank_text_args 0%Z) = false
  /\ node_hover Demo.ranked (node_text Demo.rank_text_args) "b"
     = Raise (KeyError "rank")
  /\ plot Demo.ranked Demo.rank_text_args 0%Z = Raise (KeyError "rank").
Proof.
  assert (plot_layout_step Demo.ranked (layout Demo.rank_text_args) 0%Z
          = Ok Demo.ranked) as Hl by (vm_compute; reflexivity).
  assert (has_attr Demo.ranked "b" "rank" = false) as Hmiss
    by (vm_compute; reflexivity).
  destruct (missing_hover_attribute (H := Demo.demo_libraries)
              Demo.ranked Demo.ranked Demo.rank_text_args 0%Z
              ["a"] "b" [] [] "rank" [] Hl eq_refl eq_refl Hmiss)
    as [Hfail Hexact].
  do 4 (split; [done|]). split; [exact Hfail|].
  apply Hexact; [vm_compute; reflexivity | vm_compute; reflexivity |].
  intros q Hq. by apply elem_of_nil in Hq.
Defined.

(** C10 as stated fails: a node lacks the requested attribute [rank], and
    [plot] fails with another error before any hover text is built: the
    position of the node does not unpack, or the position of an end of an
    edge is missing. *)
Lemma missing_hover_attribute_counterexample :
  node_text Demo.rank_text_args = ["rank"]
  /\ has_attr Demo.askew "a" "rank" = false
  /\ plot Demo.askew Demo.rank_text_args 0%Z = Raise TypeError
  /\ has_attr Demo.half_placed "a" "rank" = false
  /\ plot Demo.half_placed Demo.rank_text_args 0%Z = Raise (KeyError "pos").
Proof. vm_compute. repeat split; reflexivity. Qed.

(** * Further properties of the program *)

(** ** Strings *)

Lemma string_app_assoc (a b c : string) : (a +:+ b) +:+ c = a +:+ (b +:+ c).
Proof.
  induction a as [|x a IH]; [reflexivity|].
  change (String x ((a +:+ b) +:+ c) = String x (a +:+ (b +:+ c))).
  by rewrite IH.
Qed.

Lemma string_app_nil_r (a : string) : a +:+ "" = a.
Proof.
  induction a as [|x a IH]; [reflexivity|].
  change (String x (a +:+ "") = String x a). by rewrite IH.
Qed.

Section FurtherFacts.
Context {coord : Type} `{Libraries coord}.

(** The edge trace after the edges [seen]: three entries per edge. *)
Lemma edge_loop_segments (G : Graph coord) se edges st0 st :
  for_each (edge_body G se) edges st0 = Ok st ->
  exists ends,
    Forall2 (fun e s => node_xy G (e_src e) = Ok (fst s)
                        /\ node_xy G (e_tgt e) = Ok (snd s)) edges ends
    /\ et_x (el_edge_trace st)
       = et_x (el_edge_trace st0) ++ mjoin (segment_x <$> ends)
    /\ et_y (el_edge_trace st)
       = et_y (el_edge_trace st0) ++ mjoin (segment_y <$> ends).
Proof.
  revert st0. induction edges as [|e edges IH]; intros st0 Hrun.
  - injection Hrun as <-. exists []. cbn. by rewrite !app_nil_r.
  - cbn [for_each] in Hrun. bind_inv Hrun. rename r into st1.
    destruct (IH _ Hrun) as (ends & Hall & Hx & Hy).
    unfold edge_body in E. do 2 bind_inv E. rename r into xy0, r0 into xy1.
    exists ((xy0, xy1) :: ends). split; [by constructor|].
    rewrite Hx, Hy. destruct se; injection E as <-; cbn;
      by rewrite <- !app_assoc.
Qed.

(** The hover text after the attributes [ps]: one line per attribute. *)
Lemma text_loop_lines (G : Graph coord) n ps text text' :
  for_each (text_body G n) ps text = Ok text' ->
  exists vs,
    Forall2 (fun p v => G_node_attr G n p = Ok v) ps vs
    /\ text' = text +:+ String.concat "" (zip_with hover_line ps vs).
Proof.
  revert text. induction ps as [|p ps IH]; intros text Hrun.
  - injection Hrun as <-. exists []. split; [constructor|].
    cbn. by rewrite string_app_nil_r.
  - cbn [for_each] in Hrun. bind_inv Hrun. unfold text_body in E.
    bind_inv E. rename r0 into v. injection E as <-.
    destruct (IH _ Hrun) as (vs & Hall & ->).
    exists (v :: vs). split; [by constructor|].
    cbn [zip_with]. fold (hover_line p v).
    destruct (zip_with hover_line ps vs) as [|l ls] eqn:Ez.
    + cbn. by rewrite !string_app_nil_r.
    + cbn [String.concat]. by rewrite string_app_assoc.
Qed.

Lemma od_get_elem {V : Type} (n : Node) (l : list (Node * V)) d :
  od_get n l = Some d -> (n, d) ∈ l.
Proof.
  induction l as [|[k v] l IH]; [discriminate|]. cbn.
  destruct (decide (n = k)) as [->|].
  - intros [= ->]. left.
  - intros Hd. right. auto.
Qed.

(** A graph whose nodes all carry a 2D position and whose edges join
    nodes is positioned. *)
Lemma positioned_intro (G : Graph coord) :
  every_node_positioned G = true -> edges_in_nodes G = true ->
  positioned G = true.
Proof.
  unfold every_node_positioned, edges_in_nodes, positioned.
  rewrite !forallb_elem_of. intros Hnodes Hedges.
  assert (forall n, n ∈ G_nodes G -> is_Ok (node_xy G n) = true) as Hxy.
  { intros n Hn. destruct (od_get_member n (g_nodes G) Hn) as [d Hd].
    specialize (Hnodes (n, d) (od_get_elem _ _ _ Hd)).
    unfold node_positioned in Hnodes. cbn in Hnodes.
    unfold node_xy, G_node_attr, G_node. rewrite Hd. cbn. unfold getitem.
    destruct (d !! "pos") as [[]|]; done. }
  apply andb_true_iff. rewrite !forallb_elem_of. split; [done|].
  intros e He. specialize (Hedges e He).
  apply andb_true_iff in Hedges as [Hs Ht].
  apply bool_decide_eq_true in Hs, Ht. apply andb_true_iff. auto.
Qed.

(** The positions written by [_apply_layout] are those of the layout
    algorithm. *)
Lemma apply_layout_positions (G G' : Graph coord) name f rnd pos_dict n :
  od_get name layout_functions = Some f -> f G rnd = Ok pos_dict ->
  _apply_layout G name rnd = Ok G' -> n ∈ G_nodes G ->
  exists x y, pos_dict !! n = Some (x, y)
              /\ G_node_attr G' n "pos" = Ok (VPos x y).
Proof.
  intros Hf Hd Hrun Hn. unfold _apply_layout in Hrun.
  rewrite Hf, Hd in Hrun. injection Hrun as <-.
  destruct (layout_covers_nodes f (layout_functions_known name f Hf)
              G rnd pos_dict n Hd Hn) as [[x y] Hxy].
  exists x, y. split; [done|].
  unfold G_node_attr, G_node. cbn. rewrite od_get_fmap.
  - destruct (od_get_member n (g_nodes G) Hn) as [d ->]. cbn.
    unfold pos_values. rewrite lookup_fmap, Hxy. cbn. unfold getitem.
    by rewrite lookup_insert_eq.
  - intros [m d]. cbn. by destruct (pos_values pos_dict !! m).
Qed.

Lemma layout_functions_unknown name :
  name ∉ ["random"; "circular"; "kamada"; "planar"; "spring"; "spectral";
          "spiral"] ->
  od_get name layout_functions = None.
Proof.
  intros Hname. unfold layout_functions. cbn.
  repeat (case_decide; [subst; exfalso; apply Hname; set_solver|]).
  reflexivity.
Qed.

End FurtherFacts.

Section LayoutProperties.
Context {coord : Type} `{Libraries coord}.

Lemma layout_given_name name :
  name <> "" -> layout_given (Some name) = Some name.
Proof. intros Hne. by destruct name. Qed.

(** X1.  A failure of the layout is the failure of [plot]: a layout name
    that is not one of the seven raises the key error of that name, and an
    exception of the chosen layout algorithm is raised as it is. *)
Theorem layout_errors_surface (G : Graph coord) (a : PlotArgs coord) rnd name :
  layout a = Some name -> name <> "" ->
  (name ∉ ["random"; "circular"; "kamada"; "planar"; "spring"; "spectral";
           "spiral"] ->
   plot G a rnd = Raise (KeyError name))
  /\ (forall f e, od_get name layout_functions = Some f ->
        f G rnd = Raise e -> plot G a rnd = Raise e).
Proof.
  intros Hl Hne. unfold plot, plot_layout_step.
  rewrite Hl, (layout_given_name name Hne). unfold _apply_layout. split.
  - intros Hname. by rewrite layout_functions_unknown.
  - intros f e Hf He. by rewrite Hf, He.
Qed.

(** X2.  With a layout name, the layout step returns as soon as the named
    algorithm does, and every node then carries the position the
    algorithm gave it, whatever it carried before. *)
Theorem explicit_layout_overwrites (G : Graph coord) name rnd f pos_dict :
  name <> "" -> od_get name layout_functions = Some f ->
  f G rnd = Ok pos_dict ->
  exists G',
    plot_layout_step G (Some name) rnd = Ok G'
    /\ forall n, n ∈ G_nodes G ->
         exists x y, pos_dict !! n = Some (x, y)
                     /\ G_node_attr G' n "pos" = Ok (VPos x y).
Proof.
  intros Hne Hf Hd.
  exists (set_node_attributes G (pos_values pos_dict) "pos").
  assert (_apply_layout G name rnd
          = Ok (set_node_attributes G (pos_values pos_dict) "pos")) as Hrun
    by (unfold _apply_layout; by rewrite Hf, Hd).
  split.
  - unfold plot_layout_step. by rewrite (layout_given_name name Hne).
  - intros n Hn. by apply (apply_layout_positions G _ name f rnd).
Qed.

(** X3.  The layout step writes nothing but the attribute ["pos"]: the
    nodes and their order, the edges, the class of the graph, the degrees
    and every other node attribute are as before. *)
Theorem layout_step_touches_pos_only (G G' : Graph coord) layout rnd :
  plot_layout_step G layout rnd = Ok G' ->
  G_nodes G' = G_nodes G /\ g_edges G' = g_edges G
  /\ g_class G' = g_class G
  /\ (forall n, G_degree G' n = G_degree G n)
  /\ (forall n k, k <> "pos" -> G_node_attr G' n k = G_node_attr G n k).
Proof.
  intros Hrun.
  destruct (layout_step_frame G G' layout rnd Hrun) as (Hn & He & Hc).
  do 3 (split; [done|]). split.
  - intros n. by apply G_degree_edges.
  - intros n k Hk. by apply (layout_step_attr G G' layout rnd).
Qed.

(** When the step computes nothing, it returns the graph as it is. *)
Lemma layout_step_kept (G : Graph coord) layout rnd :
  layout_given layout = None ->
  (exists nd, nd ∈ g_nodes G /\ is_Some (snd nd !! "pos")) ->
  plot_layout_step G layout rnd = Ok G.
Proof.
  intros Hnone (nd & Hnd & Hpos). unfold plot_layout_step. rewrite Hnone.
  destruct (get_node_attributes G "pos") eqn:E; [|reflexivity].
  rewrite get_node_attributes_nil in E. rewrite (E nd Hnd) in Hpos.
  by destruct Hpos.
Qed.

(** X13.  With no layout name, a graph on which some node carries a
    position and another node does not is never plotted: [plot] fails. *)
Theorem partly_positioned_fails (G : Graph coord) (a : PlotArgs coord) rnd n :
  layout_given (layout a) = None ->
  (exists nd, nd ∈ g_nodes G /\ is_Some (snd nd !! "pos")) ->
  n ∈ G_nodes G -> has_attr G n "pos" = false ->
  is_Ok (plot G a rnd) = false.
Proof.
  intros Hnone Hsome Hn Hmiss.
  apply (plot_fails G G); [by apply layout_step_kept|].
  apply (scatter_trace_fails _ _ _ _ _ _ _ n); [done|].
  intros nt. unfold node_body, node_xy.
  by rewrite (G_node_attr_missing G n "pos").
Qed.

Lemma layout_step_positioned (G G' : Graph coord) layout rnd :
  plot_layout_step G layout rnd = Ok G' ->
  is_Some (layout_given layout)
  \/ (forall nd, nd ∈ g_nodes G -> snd nd !! "pos" = None)
  \/ every_node_positioned G = true ->
  every_node_positioned G' = true.
Proof.
  intros Hrun Hcases. unfold plot_layout_step in Hrun.
  destruct (layout_given layout) as [name|].
  - apply apply_layout_spec in Hrun. tauto.
  - destruct (get_node_attributes G "pos") eqn:E.
    + apply apply_layout_spec in Hrun. tauto.
    + injection Hrun as <-.
      destruct Hcases as [[? [=]]|[Hnone|Hall]]; [|done].
      apply get_node_attributes_nil in Hnone. congruence.
Qed.

(** X12.  [plot] returns a figure when the layout step returns, every
    node then has a position (a layout name was given, or no node or every
    node carried a position), the edges join nodes of the graph, every
    node has the attributes of [node_text], and the charting library
    accepts the settings of the traces, the marker size of every node
    (which the sizing finds), the marker color of every node and the
    layout of the figure. *)
Theorem plot_returns (G G' : Graph coord) (a : PlotArgs coord) rnd :
  plot_layout_step G (layout a) rnd = Ok G' ->
  is_Some (layout_given (layout a))
  \/ (forall nd, nd ∈ g_nodes G -> snd nd !! "pos" = None)
  \/ every_node_positioned G = true ->
  edges_in_nodes G = true ->
  has_attrs G' (node_text a) = true ->
  scatter_ok (colorscale a) (colorbar_title a) = true ->
  sizes_accepted G' (size_method a) = true ->
  colors_accepted G' (color_method a) = true ->
  (forall anns,
     layout_ok (title a) (titlefont_size a) (showlegend a) anns = true) ->
  exists fig, plot G a rnd = Ok fig.
Proof.
  intros Hl Hcases Hedges Hattrs Hok Hsizes Hcolors Hlayout.
  pose proof (layout_step_positioned G G' _ rnd Hl Hcases) as Hpos.
  destruct (layout_step_frame G G' _ rnd Hl) as (Hn & He & _).
  assert (positioned G' = true) as Hpositioned.
  { apply positioned_intro; [done|].
    unfold edges_in_nodes in *. by rewrite He, Hn. }
  pose proof (scatter_trace_total G' (size_method a) (color_method a)
                (colorscale a) (colorbar_title a) (node_text a)
                (show_edgetext a) Hok Hpositioned Hattrs Hsizes Hcolors)
    as Htraces.
  apply is_Ok_true in Htraces as [traces Htraces].
  by apply (plot_total G G' a rnd traces).
Qed.

End LayoutProperties.

Section TraceProperties.
Context {coord : Type} `{Libraries coord}.

(** X4.  When [plot] returns a figure, the edge trace holds, for every
    edge in the order of the enumeration, the position of its source, the
    position of its target and the gap sentinel, in [x] and in [y]. *)
Theorem edge_trace_segments (G : Graph coord) (a : PlotArgs coord) rnd fig :
  plot G a rnd = Ok fig ->
  exists G' ends,
    plot_layout_step G (layout a) rnd = Ok G'
    /\ Forall2 (fun e s => node_xy G' (e_src e) = Ok (fst s)
                           /\ node_xy G' (e_tgt e) = Ok (snd s))
         (g_edges G) ends
    /\ et_x (fig_edge_trace fig) = mjoin (segment_x <$> ends)
    /\ et_y (fig_edge_trace fig) = mjoin (segment_y <$> ends).
Proof.
  intros Hplot.
  apply plot_Ok_inv in Hplot as (G' & nt & et & mt & Hl & Hs & Hf).
  apply generate_figure_spec in Hf as (_ & -> & _).
  apply scatter_trace_Ok_inv in Hs as [_ Hs].
  unfold scatter_loops in Hs. do 2 bind_inv Hs.
  injection Hs as _ <- _.
  apply edge_loop_segments in E as (ends & Hall & Hx & Hy).
  destruct (layout_step_frame G G' _ rnd Hl) as (_ & He & _).
  rewrite He in Hall. exists G', ends. auto.
Qed.

(** X5.  When [plot] returns a figure, [x] and [y] of the node trace hold
    the positions of the nodes, in the order of the nodes of the graph. *)
Theorem node_trace_positions (G : Graph coord) (a : PlotArgs coord) rnd fig :
  plot G a rnd = Ok fig ->
  exists G',
    plot_layout_step G (layout a) rnd = Ok G'
    /\ length (nt_x (fig_node_trace fig)) = length (nt_y (fig_node_trace fig))
    /\ Forall2 (fun n xy => node_xy G' n = Ok xy) (G_nodes G)
         (zip (nt_x (fig_node_trace fig)) (nt_y (fig_node_trace fig))).
Proof.
  intros Hplot.
  apply plot_Ok_inv in Hplot as (G' & nt & et & mt & Hl & Hs & Hf).
  apply generate_figure_spec in Hf as (-> & _).
  apply scatter_trace_spec in Hs as ((Hxy & Hx & Hy & _) & _).
  destruct (layout_step_frame G G' _ rnd Hl) as (Hn & _).
  rewrite Hn in Hxy. exists G'. split; [done|]. split; [congruence|done].
Qed.

(** X6.  When [plot] returns a figure, the hover text of every node is,
    stripped of surrounding white space, its label "Node: n<br>Degree: d"
    followed by one line "<br></br>p: v" for each attribute [p] of
    [node_text], in order, [v] being the node's value of [p]. *)
Theorem node_hover_texts (G : Graph coord) (a : PlotArgs coord) rnd fig :
  plot G a rnd = Ok fig ->
  exists G',
    plot_layout_step G (layout a) rnd = Ok G'
    /\ Forall2
         (fun n t =>
            exists vs,
              Forall2 (fun p v => G_node_attr G' n p = Ok v) (node_text a) vs
              /\ t = strip (node_label G n
                            +:+ String.concat ""
                                  (zip_with hover_line (node_text a) vs)))
         (G_nodes G) (nt_text (fig_node_trace fig)).
Proof.
  intros Hplot.
  apply plot_Ok_inv in Hplot as (G' & nt & et & mt & Hl & Hs & Hf).
  apply generate_figure_spec in Hf as (-> & _).
  apply scatter_trace_spec in Hs as ((_ & _ & _ & Ht & _) & _).
  destruct (layout_step_frame G G' _ rnd Hl) as (Hn & He & _).
  rewrite Hn in Ht. exists G'. split; [done|].
  eapply Forall2_impl; [exact Ht|]. intros n t Hnt. cbn in Hnt.
  unfold hover_text in Hnt. bind_inv Hnt. injection Hnt as <-.
  rewrite node_hover_loop in E.
  apply text_loop_lines in E as (vs & Hvs & ->).
  exists vs. split; [done|]. unfold node_label.
  by rewrite (G_degree_edges G G').
Qed.

(** X7.  When [plot] returns a figure and [color_method] is "degree", the
    marker color of every node is its degree. *)
Theorem colors_by_degree (G : Graph coord) (a : PlotArgs coord) rnd fig :
  plot G a rnd = Ok fig -> color_method a = MStr "degree" ->
  nt_color (fig_node_trace fig)
  = (fun n => VInt (G_degree G n)) <$> G_nodes G.
Proof.
  intros Hplot Hcm.
  apply plot_Ok_inv in Hplot as (G' & nt & et & mt & Hl & Hs & Hf).
  apply generate_figure_spec in Hf as (-> & _).
  apply scatter_trace_spec in Hs as ((_ & _ & _ & _ & _ & Hc & _) & _).
  destruct (layout_step_frame G G' _ rnd Hl) as (Hn & He & _).
  rewrite Hcm in Hc. rewrite Hc, Hn. apply list_fmap_ext. intros i n _.
  unfold color_of. rewrite decide_True by done.
  by rewrite (G_degree_edges G G').
Qed.

(** X8.  When [plot] returns a figure and [size_method] names an
    attribute, the marker size of every node is its value of that
    attribute, in the order of the nodes. *)
Theorem sizes_by_attribute (G : Graph coord) (a : PlotArgs coord) rnd fig s :
  plot G a rnd = Ok fig -> size_method a = MStr s ->
  s <> "degree" -> s <> "static" ->
  exists G',
    plot_layout_step G (layout a) rnd = Ok G'
    /\ Forall2 (fun n v => G_node_attr G' n s = Ok v) (G_nodes G)
         (nt_size (fig_node_trace fig)).
Proof.
  intros Hplot Hsm Hd Hst.
  apply plot_Ok_inv in Hplot as (G' & nt & et & mt & Hl & Hs & Hf).
  apply generate_figure_spec in Hf as (-> & _).
  apply scatter_trace_spec in Hs as ((_ & _ & _ & _ & Hsize & _) & _).
  destruct (layout_step_frame G G' _ rnd Hl) as (Hn & _).
  rewrite Hsm in Hsize. rewrite Hn in Hsize. exists G'. split; [done|].
  eapply Forall2_impl; [exact Hsize|]. intros n v. cbn.
  unfold size_value. by rewrite !decide_False.
Qed.

(** X9.  When [plot] returns a figure, the figure carries the title, the
    title font size and the legend flag of the call, and its node trace
    the color scale and the color bar title of the call. *)
Theorem figure_settings (G : Graph coord) (a : PlotArgs coord) rnd fig :
  plot G a rnd = Ok fig ->
  fig_title fig = title a
  /\ fig_titlefont_size fig = titlefont_size a
  /\ fig_showlegend fig = showlegend a
  /\ nt_colorscale (fig_node_trace fig) = colorscale a
  /\ nt_colorbar_title (fig_node_trace fig) = colorbar_title a.
Proof.
  intros Hplot.
  apply plot_Ok_inv in Hplot as (G' & nt & et & mt & Hl & Hs & Hf).
  apply scatter_trace_spec in Hs
    as ((_ & _ & _ & _ & _ & _ & Hcs & Hcbt) & _).
  unfold _generate_figure in Hf. bind_inv Hf.
  destruct (layout_ok _ _ _ _); [|discriminate]. injection Hf as <-. cbn.
  auto.
Qed.

Lemma aggregate_no_data p (edges : list (Edge coord)) :
  (forall e, e ∈ edges -> e_data e = []) -> aggregate p edges = [].
Proof.
  intros Hdata. unfold aggregate, pair_items.
  assert (mjoin (e_data <$> filter (fun e => edge_pair e = p) edges) = [])
    as ->; [|reflexivity].
  induction edges as [|e edges IH]; [reflexivity|].
  rewrite filter_cons. destruct (decide (edge_pair e = p)).
  - cbn. rewrite (Hdata e) by left. cbn. apply IH.
    intros e' He'. apply Hdata. by right.
  - apply IH. intros e' He'. apply Hdata. by right.
Qed.

(** X14.  With edge hover text on a graph whose edges have no attributes,
    the hover text of every pair is the empty string. *)
Theorem no_edge_attributes_empty_text (G : Graph coord) (a : PlotArgs coord)
    rnd fig :
  show_edgetext a = true -> plot G a rnd = Ok fig ->
  (forall e, e ∈ g_edges G -> e_data e = []) ->
  mt_text (fig_middle_node_trace fig) = (fun _ => "") <$> distinct_pairs G.
Proof.
  intros Hse Hplot Hdata.
  apply plot_Ok_inv in Hplot as (G' & nt & et & mt & Hl & Hs & Hf).
  apply generate_figure_spec in Hf as (_ & _ & -> & _).
  apply scatter_trace_spec in Hs as (_ & _ & _ & _ & Hmid).
  rewrite Hse in Hmid. destruct Hmid as [-> _].
  destruct (layout_step_frame G G' _ rnd Hl) as (_ & He & _).
  unfold distinct_pairs. rewrite He. apply list_fmap_ext. intros i p _.
  by rewrite aggregate_no_data.
Qed.

End TraceProperties.

Section OptionProperties.
Context {coord : Type} `{Libraries coord}.

(** Without edge hover text the loop over the edges returns when it does
    with it, with the same edge trace and no hover marker. *)
Lemma edge_loop_flag (G : Graph coord) edges st1 st2 u1 :
  el_edge_trace st1 = el_edge_trace st2 ->
  el_middle st2 = el_middle edge_loop_init ->
  for_each (edge_body G true) edges st1 = Ok u1 ->
  exists u2,
    for_each (edge_body G false) edges st2 = Ok u2
    /\ el_edge_trace u1 = el_edge_trace u2
    /\ el_middle u2 = el_middle edge_loop_init.
Proof.
  intros Het Hmt.
  apply (for_each_simulation _ _
           (fun t1 t2 => el_edge_trace t1 = el_edge_trace t2
                         /\ el_middle t2 = el_middle edge_loop_init));
    [done|].
  intros e t1 t2 v1 _ [Ht Hm] Hrun. unfold edge_body in *.
  do 2 bind_inv Hrun. injection Hrun as <-. cbn. rewrite Ht, E, E0. cbn.
  eexists. split; [reflexivity|]. by split.
Qed.

Lemma scatter_trace_flag (G : Graph coord) sm cm cs cbt ntext nt et mt :
  _generate_scatter_trace G sm cm cs cbt ntext true = Ok (nt, et, mt) ->
  _generate_scatter_trace G sm cm cs cbt ntext false
  = Ok (nt, et, {| mt_x := []; mt_y := []; mt_text := [] |}).
Proof.
  intros Hrun. apply scatter_trace_Ok_inv in Hrun as [Hok Hrun].
  unfold _generate_scatter_trace. rewrite Hok.
  unfold scatter_loops in *. do 2 bind_inv Hrun. injection Hrun as <- <- _.
  destruct (edge_loop_flag G (g_edges G) edge_loop_init edge_loop_init r
              eq_refl eq_refl E) as (u2 & -> & Ht & Hm).
  cbn. rewrite E0. cbn. by rewrite Ht, Hm.
Qed.

(** The figure is assembled around the hover trace it is given. *)
Lemma generate_figure_middle (G : Graph coord) nt et mt1 mt2 t tf sl atext
    fig :
  _generate_figure G nt et mt1 t tf sl atext = Ok fig ->
  _generate_figure G nt et mt2 t tf sl atext
  = Ok {| fig_edge_trace := fig_edge_trace fig;
          fig_node_trace := fig_node_trace fig;
          fig_middle_node_trace := mt2;
          fig_title := fig_title fig;
          fig_titlefont_size := fig_titlefont_size fig;
          fig_showlegend := fig_showlegend fig;
          fig_annotations := fig_annotations fig |}.
Proof.
  unfold _generate_figure. intros Hrun. bind_inv Hrun. rewrite E. cbn.
  destruct (layout_ok t tf sl r); [|discriminate]. by injection Hrun as <-.
Qed.

(** X10.  Edge hover text only adds the hover markers: when [plot]
    returns a figure with edge hover text, then without it [plot] returns
    the same figure but for the hover trace, which is empty. *)
Theorem edge_hover_flag (G : Graph coord) (a : PlotArgs coord) rnd fig :
  plot G (with_show_edgetext true a) rnd = Ok fig ->
  plot G (with_show_edgetext false a) rnd = Ok (without_hover fig).
Proof.
  intros Hplot.
  apply plot_Ok_inv in Hplot as (G' & nt & et & mt & Hl & Hs & Hf).
  cbn [with_show_edgetext layout size_method color_method colorscale
       colorbar_title node_text show_edgetext title titlefont_size
       showlegend annotation_text] in *.
  unfold plot.
  cbn [with_show_edgetext layout size_method color_method colorscale
       colorbar_title node_text show_edgetext title titlefont_size
       showlegend annotation_text].
  rewrite Hl. cbn. rewrite (scatter_trace_flag _ _ _ _ _ _ _ _ _ Hs). cbn.
  apply (generate_figure_middle G' nt et mt
           {| mt_x := []; mt_y := []; mt_text := [] |}) in Hf.
  exact Hf.
Qed.

Lemma same_but_color_set (nt1 nt2 : NodeTrace coord) :
  same_but_color nt1 nt2 -> nt2 = set_nt_color (nt_color nt2) nt1.
Proof.
  destruct nt1, nt2. unfold same_but_color, set_nt_color. cbn.
  intros (-> & -> & -> & -> & -> & ->). reflexivity.
Qed.

(** Two runs of the body of the node loop that differ in the coloring
    differ in the marker colors only. *)
Lemma node_body_colors (G : Graph coord) sm cm1 cm2 ntext n t1 t2 v1 v2 :
  same_but_color t1 t2 ->
  node_body G sm cm1 ntext t1 n = Ok v1 ->
  node_body G sm cm2 ntext t2 n = Ok v2 ->
  same_but_color v1 v2.
Proof.
  intros (Hx & Hy & Ht & Hs & Hcs & Hcbt) H1 H2. unfold node_body in *.
  rewrite Hs in H1. do 4 bind_inv H1. do 4 bind_inv H2.
  injection H1 as <-. injection H2 as <-.
  unfold same_but_color. cbn.
  assert (r3 = r) as -> by congruence.
  assert (r4 = r0) as -> by congruence.
  assert (r5 = r1) as -> by congruence.
  by rewrite Hx, Hy, Ht, Hcs, Hcbt.
Qed.

(** With colors that the charting library accepts, the body of the node
    loop returns when it does with another coloring. *)
Lemma node_body_recolored (G : Graph coord) sm cm1 cm2 ntext n t1 t2 v1 :
  n ∈ G_nodes G -> colors_accepted G cm2 = true ->
  same_but_color t1 t2 -> forallb marker_color_ok (nt_color t2) = true ->
  node_body G sm cm1 ntext t1 n = Ok v1 ->
  exists v2, node_body G sm cm2 ntext t2 n = Ok v2
             /\ same_but_color v1 v2
             /\ forallb marker_color_ok (nt_color v2) = true.
Proof.
  intros Hn Hacc Hsame Hvalid H1.
  pose proof (color_entry_accepted G cm2 n (nt_color t2) Hn Hacc Hvalid) as Hc.
  apply is_Ok_true in Hc as [color Hc].
  assert (exists v2, node_body G sm cm2 ntext t2 n = Ok v2
                     /\ nt_color v2 = color) as (v2 & H2 & Hcol).
  { destruct Hsame as (_ & _ & _ & Hs & _). unfold node_body in *.
    rewrite Hs in H1. do 4 bind_inv H1. rewrite Hc, E, E0, E1. cbn.
    eauto. }
  exists v2. split; [done|]. split.
  - by apply (node_body_colors G sm cm1 cm2 ntext n t1 t2).
  - rewrite Hcol. by apply color_entry_valid in Hc.
Qed.

(** X11.  The coloring policy decides the marker colors and nothing else.
    When [plot] returns a figure, then with another [color_method] a
    figure it returns differs in the marker colors only, and it does
    return one when the charting library accepts the marker color of
    every node. *)
Theorem color_method_only_colors (G : Graph coord) (a : PlotArgs coord)
    (cm : Method coord) rnd fig1 :
  plot G a rnd = Ok fig1 ->
  (forall fig2, plot G (with_color_method cm a) rnd = Ok fig2 ->
     fig2 = set_colors (nt_color (fig_node_trace fig2)) fig1)
  /\ (forall G', plot_layout_step G (layout a) rnd = Ok G' ->
        colors_accepted G' cm = true ->
        is_Ok (plot G (with_color_method cm a) rnd) = true).
Proof.
  intros Hplot.
  apply plot_Ok_inv in Hplot as (G' & nt1 & et & mt & Hl & Hs & Hf).
  apply scatter_trace_Ok_inv in Hs as [Hok Hs].
  unfold scatter_loops in Hs. bind_inv Hs. rename r into st, E into Hedges.
  bind_inv Hs. rename r into nt, E into Hnodes. injection Hs as <- <- <-.
  unfold _generate_figure in Hf. bind_inv Hf. rename r into anns.
  destruct (layout_ok _ _ _ anns) eqn:Hlayout; [|discriminate].
  injection Hf as <-.
  assert (same_but_color
            (node_trace_init (coord := coord) (colorscale a) (colorbar_title a))
            (node_trace_init (colorscale a) (colorbar_title a))) as Hinit
    by (by repeat split).
  split.
  - intros fig2 Hplot2.
    apply plot_Ok_inv in Hplot2 as (G2 & nt2 & et2 & mt2 & Hl2 & Hs2 & Hf2).
    cbn [with_color_method layout size_method color_method colorscale
         colorbar_title node_text show_edgetext title titlefont_size
         showlegend annotation_text] in *.
    rewrite Hl in Hl2. injection Hl2 as <-.
    apply scatter_trace_Ok_inv in Hs2 as [_ Hs2].
    unfold scatter_loops in Hs2. rewrite Hedges in Hs2. cbn in Hs2.
    bind_inv Hs2. injection Hs2 as <- <- <-.
    pose proof (for_each_both_Ok _ _ same_but_color _ _ _ _ _ Hinit
                  (fun n t1 t2 v1 v2 _ Hsame =>
                     node_body_colors G' _ _ _ _ n t1 t2 v1 v2 Hsame)
                  Hnodes E0) as Hsame.
    apply same_but_color_set in Hsame.
    unfold _generate_figure in Hf2. rewrite E in Hf2. cbn in Hf2.
    rewrite Hlayout in Hf2. injection Hf2 as <-.
    unfold set_colors. cbn. by rewrite <- Hsame.
  - intros G2 Hl2 Hacc. rewrite Hl in Hl2. injection Hl2 as <-.
    unfold plot.
    cbn [with_color_method layout size_method color_method colorscale
         colorbar_title node_text show_edgetext title titlefont_size
         showlegend annotation_text].
    rewrite Hl. cbn. unfold _generate_scatter_trace. rewrite Hok.
    unfold scatter_loops. rewrite Hedges. cbn.
    destruct (for_each_simulation
                (node_body G' (size_method a) (color_method a) (node_text a))
                (node_body G' (size_method a) cm (node_text a))
                (fun t1 t2 => same_but_color t1 t2
                              /\ forallb marker_color_ok (nt_color t2) = true)
                (G_nodes G') _ (node_trace_init (colorscale a) (colorbar_title a))
                nt (conj Hinit eq_refl)) as (nt2 & -> & _ & _); [|done|].
    + intros n t1 t2 v1 Hn [Hsame Hvalid] H1.
      by apply (node_body_recolored G' _ (color_method a) cm _ n t1 t2).
    + cbn. unfold _generate_figure. rewrite E. cbn. by rewrite Hlayout.
Qed.

End OptionProperties.

(** * The further properties on concrete graphs *)

(** X1 on a layout name that is not in the table, and on the planar
    layout of the instance raising on a graph with too many edges. *)
Lemma layout_errors_surface_witness :
  layout Demo.unknown_layout_args = Some "grid"
  /\ "grid" <> ""
  /\ plot Demo.scored Demo.unknown_layout_args 0%Z = Raise (KeyError "grid")
  /\ layout Demo.planar_args = Some "planar"
  /\ plot Demo.knotted Demo.planar_args 0%Z = Raise NetworkXException.
Proof.
  assert ("grid" <> "") as Hg by discriminate.
  assert ("planar" <> "") as Hp by discriminate.
  destruct (layout_errors_surface (H := Demo.demo_libraries) Demo.scored
              Demo.unknown_layout_args 0%Z "grid" eq_refl Hg) as [Hunknown _].
  destruct (layout_errors_surface (H := Demo.demo_libraries) Demo.knotted
              Demo.planar_args 0%Z "planar" eq_refl Hp) as [_ Hraise].
  split; [reflexivity|]. split; [exact Hg|]. split.
  - apply Hunknown. intros Hin.
    repeat (apply elem_of_cons in Hin as [Hin|Hin]; [discriminate|]).
    by apply elem_of_nil in Hin.
  - split; [reflexivity|].
    apply (Hraise Demo.planar_or_raise); [reflexivity|].
    vm_compute. reflexivity.
Defined.

(** X2 on two nodes that carry positions, with the layout name
    "circular". *)
Lemma explicit_layout_overwrites_witness :
  "circular" <> ""
  /\ od_get "circular" layout_functions = Some (Demo.line_layout 1 1)
  /\ Demo.line_layout 1 1 Demo.parallel2 0%Z = Ok Demo.circular_ab
  /\ exists G',
       plot_layout_step Demo.parallel2 (Some "circular") 0%Z = Ok G'
       /\ forall n, n ∈ G_nodes Demo.parallel2 ->
            exists x y, Demo.circular_ab !! n = Some (x, y)
                        /\ G_node_attr G' n "pos" = Ok (VPos x y).
Proof.
  assert ("circular" <> "") as Hne by discriminate.
  assert (od_get "circular" (layout_functions (H := Demo.demo_libraries))
          = Some (Demo.line_layout 1 1)) as Hf by reflexivity.
  assert (Demo.line_layout 1 1 Demo.parallel2 0%Z = Ok Demo.circular_ab)
    as Hd by (vm_compute; reflexivity).
  exact (conj Hne
           (conj Hf
              (conj Hd
                 (explicit_layout_overwrites (H := Demo.demo_libraries)
                    Demo.parallel2 "circular" 0%Z _ _ Hne Hf Hd)))).
Defined.

(** X3 on the path, with the layout name "circular". *)
Lemma layout_step_touches_pos_only_witness :
  plot_layout_step Demo.path3 (Some "circular") 0%Z = Ok Demo.path3_circular
  /\ G_nodes Demo.path3_circular = G_nodes Demo.path3
  /\ g_edges Demo.path3_circular = g_edges Demo.path3
  /\ g_class Demo.path3_circular = g_class Demo.path3
  /\ (forall n, G_degree Demo.path3_circular n = G_degree Demo.path3 n)
  /\ (forall n k, k <> "pos" ->
        G_node_attr Demo.path3_circular n k = G_node_attr Demo.path3 n k).
Proof.
  assert (plot_layout_step Demo.path3 (Some "circular") 0%Z
          = Ok Demo.path3_circular) as Hl by (vm_compute; reflexivity).
  exact (conj Hl
           (layout_step_touches_pos_only (H := Demo.demo_libraries)
              Demo.path3 Demo.path3_circular (Some "circular") 0%Z Hl)).
Defined.

(** X4 on a directed graph of two nodes and one edge, laid out by the
    spiral layout of the instance. *)
Lemma edge_trace_segments_witness :
  plot Demo.scored Demo.score_args 0%Z = Ok Demo.scored_figure
  /\ exists G' ends,
       plot_layout_step Demo.scored (layout Demo.score_args) 0%Z = Ok G'
       /\ Forall2 (fun e s => node_xy G' (e_src e) = Ok (fst s)
                              /\ node_xy G' (e_tgt e) = Ok (snd s))
            (g_edges Demo.scored) ends
       /\ et_x (fig_edge_trace Demo.scored_figure) = mjoin (segment_x <$> ends)
       /\ et_y (fig_edge_trace Demo.scored_figure) = mjoin (segment_y <$> ends).
Proof.
  assert (plot Demo.scored Demo.score_args 0%Z = Ok Demo.scored_figure)
    as Hplot by (vm_compute; reflexivity).
  exact (conj Hplot
           (edge_trace_segments Demo.scored Demo.score_args 0%Z _ Hplot)).
Defined.

(** X5 on the same call. *)
Lemma node_trace_positions_witness :
  plot Demo.scored Demo.score_args 0%Z = Ok Demo.scored_figure
  /\ exists G',
       plot_layout_step Demo.scored (layout Demo.score_args) 0%Z = Ok G'
       /\ length (nt_x (fig_node_trace Demo.scored_figure))
          = length (nt_y (fig_node_trace Demo.scored_figure))
       /\ Forall2 (fun n xy => node_xy G' n = Ok xy) (G_nodes Demo.scored)
            (zip (nt_x (fig_node_trace Demo.scored_figure))
                 (nt_y (fig_node_trace Demo.scored_figure))).
Proof.
  assert (plot Demo.scored Demo.score_args 0%Z = Ok Demo.scored_figure)
    as Hplot by (vm_compute; reflexivity).
  exact (conj Hplot
           (node_trace_positions Demo.scored Demo.score_args 0%Z _ Hplot)).
Defined.

(** X6 on the same call, which asks for the attribute [score]. *)
Lemma node_hover_texts_witness :
  plot Demo.scored Demo.score_args 0%Z = Ok Demo.scored_figure
  /\ exists G',
       plot_layout_step Demo.scored (layout Demo.score_args) 0%Z = Ok G'
       /\ Forall2
            (fun n t =>
               exists vs,
                 Forall2 (fun p v => G_node_attr G' n p = Ok v)
                   (node_text Demo.score_args) vs
                 /\ t = strip (node_label Demo.scored n
                               +:+ String.concat ""
                                     (zip_with hover_line
                                        (node_text Demo.score_args) vs)))
            (G_nodes Demo.scored) (nt_text (fig_node_trace Demo.scored_figure)).
Proof.
  assert (plot Demo.scored Demo.score_args 0%Z = Ok Demo.scored_figure)
    as Hplot by (vm_compute; reflexivity).
  exact (conj Hplot
           (node_hover_texts Demo.scored Demo.score_args 0%Z _ Hplot)).
Defined.

(** X7 on the same call, whose coloring is by degree. *)
Lemma colors_by_degree_witness :
  plot Demo.scored Demo.score_args 0%Z = Ok Demo.scored_figure
  /\ color_method Demo.score_args = MStr "degree"
  /\ nt_color (fig_node_trace Demo.scored_figure)
     = (fun n => VInt (G_degree Demo.scored n)) <$> G_nodes Demo.scored.
Proof.
  assert (plot Demo.scored Demo.score_args 0%Z = Ok Demo.scored_figure)
    as Hplot by (vm_compute; reflexivity).
  exact (conj Hplot
           (conj eq_refl
              (colors_by_degree Demo.scored Demo.score_args 0%Z _ Hplot
                 eq_refl))).
Defined.

(** X8 on the same call, whose sizing is by the attribute [score]. *)
Lemma sizes_by_attribute_witness :
  plot Demo.scored Demo.score_args 0%Z = Ok Demo.scored_figure
  /\ size_method Demo.score_args = MStr "score"
  /\ "score" <> "degree" /\ "score" <> "static"
  /\ exists G',
       plot_layout_step Demo.scored (layout Demo.score_args) 0%Z = Ok G'
       /\ Forall2 (fun n v => G_node_attr G' n "score" = Ok v)
            (G_nodes Demo.scored) (nt_size (fig_node_trace Demo.scored_figure)).
Proof.
  assert (plot Demo.scored Demo.score_args 0%Z = Ok Demo.scored_figure)
    as Hplot by (vm_compute; reflexivity).
  assert ("score" <> "degree") as Hd by discriminate.
  assert ("score" <> "static") as Hs by discriminate.
  exact (conj Hplot
           (conj eq_refl
              (conj Hd
                 (conj Hs
                    (sizes_by_attribute Demo.scored Demo.score_args 0%Z _
                       "score" Hplot eq_refl Hd Hs))))).
Defined.

(** X9 on the same call. *)
Lemma figure_settings_witness :
  plot Demo.scored Demo.score_args 0%Z = Ok Demo.scored_figure
  /\ fig_title Demo.scored_figure = title Demo.score_args
  /\ fig_titlefont_size Demo.scored_figure = titlefont_size Demo.score_args
  /\ fig_showlegend Demo.scored_figure = showlegend Demo.score_args
  /\ nt_colorscale (fig_node_trace Demo.scored_figure)
     = colorscale Demo.score_args
  /\ nt_colorbar_title (fig_node_trace Demo.scored_figure)
     = colorbar_title Demo.score_args.
Proof.
  assert (plot Demo.scored Demo.score_args 0%Z = Ok Demo.scored_figure)
    as Hplot by (vm_compute; reflexivity).
  exact (conj Hplot
           (figure_settings Demo.scored Demo.score_args 0%Z _ Hplot)).
Defined.

(** X12 on the same call. *)
Lemma plot_returns_witness :
  plot_layout_step Demo.scored (layout Demo.score_args) 0%Z
  = Ok Demo.scored_spiral
  /\ (is_Some (layout_given (layout Demo.score_args))
      \/ (forall nd, nd ∈ g_nodes Demo.scored -> snd nd !! "pos" = None)
      \/ every_node_positioned Demo.scored = true)
  /\ edges_in_nodes Demo.scored = true
  /\ has_attrs Demo.scored_spiral (node_text Demo.score_args) = true
  /\ scatter_ok (colorscale Demo.score_args) (colorbar_title Demo.score_args)
     = true
  /\ sizes_accepted Demo.scored_spiral (size_method Demo.score_args) = true
  /\ colors_accepted Demo.scored_spiral (color_method Demo.score_args) = true
  /\ (forall anns : list (Annotation Z),
        layout_ok (title Demo.score_args) (titlefont_size Demo.score_args)
          (showlegend Demo.score_args) anns = true)
  /\ exists fig, plot Demo.scored Demo.score_args 0%Z = Ok fig.
Proof.
  assert (plot_layout_step Demo.scored (layout Demo.score_args) 0%Z
          = Ok Demo.scored_spiral) as Hl by (vm_compute; reflexivity).
  assert (is_Some (layout_given (layout Demo.score_args))
          \/ (forall nd, nd ∈ g_nodes Demo.scored -> snd nd !! "pos" = None)
          \/ every_node_positioned Demo.scored = true) as Hcase
    by (left; eexists; reflexivity).
  assert (edges_in_nodes Demo.scored = true) as He
    by (vm_compute; reflexivity).
  assert (has_attrs Demo.scored_spiral (node_text Demo.score_args) = true)
    as Ha by (vm_compute; reflexivity).
  assert (scatter_ok (colorscale Demo.score_args)
            (colorbar_title Demo.score_args) = true) as Hok
    by (vm_compute; reflexivity).
  assert (sizes_accepted Demo.scored_spiral (size_method Demo.score_args)
          = true) as Hs by (vm_compute; reflexivity).
  assert (colors_accepted Demo.scored_spiral (color_method Demo.score_args)
          = true) as Hc by (vm_compute; reflexivity).
  assert (forall anns : list (Annotation Z),
            layout_ok (title Demo.score_args) (titlefont_size Demo.score_args)
              (showlegend Demo.score_args) anns = true) as Hlay
    by (intros anns; reflexivity).
  exact (conj Hl
           (conj Hcase
              (conj He
                 (conj Ha
                    (conj Hok
                       (conj Hs
                          (conj Hc
                             (conj Hlay
                                (plot_returns (H := Demo.demo_libraries)
                                   Demo.scored Demo.scored_spiral
                                   Demo.score_args 0%Z
                                   Hl Hcase He Ha Hok Hs Hc Hlay))))))))).
Defined.

(** X13 on the graph whose second node has no position. *)
Lemma partly_positioned_fails_witness :
  layout_given (layout (default_args (coord := Z))) = None
  /\ (exists nd, nd ∈ g_nodes Demo.half_placed /\ is_Some (snd nd !! "pos"))
  /\ "b" ∈ G_nodes Demo.half_placed
  /\ has_attr Demo.half_placed "b" "pos" = false
  /\ is_Ok (plot Demo.half_placed default_args 0%Z) = false.
Proof.
  assert (exists nd, nd ∈ g_nodes Demo.half_placed
                     /\ is_Some (snd nd !! "pos")) as Hsome.
  { exists ("a", {["pos" := VPos 0 0]}%Z). split; [left|].
    exists (VPos 0 0)%Z. reflexivity. }
  assert ("b" ∈ G_nodes Demo.half_placed) as Hb by (right; left).
  assert (has_attr Demo.half_placed "b" "pos" = false) as Hmiss
    by (vm_compute; reflexivity).
  exact (conj eq_refl
           (conj Hsome
              (conj Hb
                 (conj Hmiss
                    (partly_positioned_fails (H := Demo.demo_libraries)
                       Demo.half_placed default_args 0%Z "b"
                       eq_refl Hsome Hb Hmiss))))).
Defined.

(** X14 on a graph whose only edge has no attributes. *)
Lemma no_edge_attributes_empty_text_witness :
  show_edgetext Demo.score_args = true
  /\ plot Demo.scored Demo.score_args 0%Z = Ok Demo.scored_figure
  /\ (forall e, e ∈ g_edges Demo.scored -> e_data e = [])
  /\ mt_text (fig_middle_node_trace Demo.scored_figure)
     = (fun _ => "") <$> distinct_pairs Demo.scored.
Proof.
  assert (plot Demo.scored Demo.score_args 0%Z = Ok Demo.scored_figure)
    as Hplot by (vm_compute; reflexivity).
  assert (forall e, e ∈ g_edges Demo.scored -> e_data e = []) as Hdata.
  { intros e He. apply list_elem_of_singleton in He. by subst e. }
  exact (conj eq_refl
           (conj Hplot
              (conj Hdata
                 (no_edge_attributes_empty_text Demo.scored Demo.score_args
                    0%Z _ eq_refl Hplot Hdata)))).
Defined.

(** X10 on a directed graph with hover text: switching the hover text
    off empties the hover trace. *)
Lemma edge_hover_flag_witness :
  plot Demo.two_way (with_show_edgetext true Demo.hover_args) 0%Z
  = Ok Demo.two_way_figure
  /\ plot Demo.two_way (with_show_edgetext false Demo.hover_args) 0%Z
     = Ok (without_hover Demo.two_way_figure).
Proof.
  assert (plot Demo.two_way (with_show_edgetext true Demo.hover_args) 0%Z
          = Ok Demo.two_way_figure) as Hplot by (vm_compute; reflexivity).
  exact (conj Hplot
           (edge_hover_flag (H := Demo.demo_libraries) Demo.two_way
              Demo.hover_args 0%Z _ Hplot)).
Defined.

(** X11 on the same graph: a list of two color names changes the colors
    only. *)
Lemma color_method_only_colors_witness :
  plot Demo.two_way Demo.hover_args 0%Z = Ok Demo.two_way_figure
  /\ colors_accepted Demo.two_way (MList [VStr "red"; VStr "blue"]) = true
  /\ is_Ok (plot Demo.two_way
              (with_color_method (MList [VStr "red"; VStr "blue"])
                 Demo.hover_args) 0%Z) = true
  /\ plot Demo.two_way
       (with_color_method (MList [VStr "red"; VStr "blue"]) Demo.hover_args)
       0%Z
     = Ok (set_colors [VStr "red"; VStr "blue"] Demo.two_way_figure).
Proof.
  assert (plot Demo.two_way Demo.hover_args 0%Z = Ok Demo.two_way_figure)
    as Hplot by (vm_compute; reflexivity).
  destruct (color_method_only_colors (H := Demo.demo_libraries) Demo.two_way
              Demo.hover_args (MList [VStr "red"; VStr "blue"]) 0%Z _ Hplot)
    as [Hsame Hreturns].
  assert (colors_accepted Demo.two_way (MList [VStr "red"; VStr "blue"])
          = true) as Hacc by (vm_compute; reflexivity).
  split; [exact Hplot|]. split; [exact Hacc|]. split.
  - apply (Hreturns Demo.two_way); [vm_compute; reflexivity | exact Hacc].
  - vm_compute. reflexivity.
Defined.
